(** * Project Armstrong: the mission-control loop around the lunar lander

    A shallow embedding of the orchestration code of the repository
    (agents.py, lunar_tools.py, main_mission.py, evaluate_agent.py,
    lunar_env_wrapper.py, mission_report.py) and the properties of its
    decision pipeline.

    Python values that are dynamically typed in the source (the arguments of
    a tool call) are kept as a small universe [PyVal]; dictionaries are
    [gmap]s; exceptions are an explicit error result; the mutable lander
    object is threaded as a state. *)

From Stdlib Require Import ZArith Lia.
From stdpp Require Import base option list strings gmap pretty.

Local Open Scope string_scope.
Local Open Scope Z_scope.

(** ** Python values and exceptions *)

(** The scalar values of a tool-call argument dictionary: [None],
    booleans, integers and strings.  Floats, lists and dictionaries are not
    represented. *)
Inductive PyVal : Type :=
  | VNone
  | VBool (b : bool)
  | VInt (z : Z)
  | VStr (s : string).

Global Instance PyVal_eq_dec : EqDecision PyVal.
Proof. solve_decision. Defined.

(** The exceptions the pipeline can meet.  [KeyboardInterrupt] is the only
    one that does not derive from [Exception]. *)
Inductive PyExc : Type :=
  | KeyboardInterrupt
  | AttributeError
  | TypeError
  | ValueError
  | TimeoutError
  | ServiceError (msg : string)
  | ProcessFault (msg : string).

Global Instance PyExc_eq_dec : EqDecision PyExc.
Proof. solve_decision. Defined.

(** [isinstance(e, Exception)] *)
Definition is_Exception (e : PyExc) : bool :=
  match e with
  | KeyboardInterrupt => false
  | _ => true
  end.

(** A computation that either raises or returns. *)
Inductive Res (A : Type) : Type :=
  | Raise (e : PyExc)
  | Ret (a : A).
Arguments Raise {A} e.
Arguments Ret {A} a.

Definition res_bind {A B} (m : Res A) (k : A -> Res B) : Res B :=
  match m with
  | Raise e => Raise e
  | Ret a => k a
  end.

Notation "'let?' x ':=' m 'in' k" := (res_bind m (fun x => k))
  (at level 10, x name, m at level 100, k at level 200,
   format "'let?'  x  ':='  m  'in' '//' k").

(** ** agents.py

    The agent objects keep what the programs set, without the instruction
    texts. *)

Record HttpRetryOptions : Type := {
  attempts : Z;
  exp_base : Z;
  initial_delay : Z;
  http_status_codes : list Z
}.

Record LlmAgent : Type := {
  agent_name : string;
  agent_model : string;
  retry_options : HttpRetryOptions;
  description : string;
  tools : list string
}.

(** [sep.join(l)] *)
Fixpoint join (sep : string) (l : list string) : string :=
  match l with
  | [] => ""
  | [s] => s
  | s :: rest => s +:+ sep +:+ join sep rest
  end.

(** The dictionary the tool returns: a success carrying the decision, or an
    error carrying a message. *)
Inductive ToolResult : Type :=
  | ToolSuccess (action : string) (duration : Z) (reasoning : string)
  | ToolError (error_message : string).

Module agents.

(** The [execute_maneuver] tool: the action validator. *)

Definition valid_actions : list string :=
  ["MAIN_ENGINE"; "LEFT_ENGINE"; "RIGHT_ENGINE"; "HOLD"].

Definition execute_maneuver (action : string) (duration : Z)
    (reasoning : string) : ToolResult :=
  if negb (bool_decide (action ∈ valid_actions)) then
    ToolError ("Invalid action '" +:+ action +:+ "'. Must be one of: "
               +:+ join ", " valid_actions)
  else if negb ((1 <=? duration) && (duration <=? 10)) then
    ToolError ("Invalid duration " +:+ pretty duration
               +:+ ". Must be between 1-10 frames.")
  else
    ToolSuccess action duration reasoning.

Definition retry_config : HttpRetryOptions :=
  {| attempts := 5; exp_base := 7; initial_delay := 1;
     http_status_codes := [429; 500; 503; 504] |}.

Definition create_navigator_agent : LlmAgent :=
  {| agent_name := "navigator";
     agent_model := "gemini-2.5-flash-lite";
     retry_options := retry_config;
     description := "Strategic advisor for lunar landing mission";
     tools := [] |}.

Definition create_commander_agent : LlmAgent :=
  {| agent_name := "commander";
     agent_model := "gemini-2.5-flash-lite";
     retry_options := retry_config;
     description := "Pilot executing tactical maneuvers for lunar landing";
     tools := ["execute_maneuver"] |}.

End agents.

(** ** lunar_tools.py: the action table *)

Definition action_map : gmap string Z :=
  {[ "HOLD" := 0; "MAIN_ENGINE" := 2; "LEFT_ENGINE" := 3; "RIGHT_ENGINE" := 1 ]}.

(** [action_map.get(action_name, 0)]: a key that is not a string is never
    found. *)
Definition action_code (action_name : PyVal) : Z :=
  match action_name with
  | VStr s => default 0 (action_map !! s)
  | _ => 0
  end.

(** ** The reasoning service: response events

    What [Runner.run_async] yields.  A part carries text, a function call,
    or the response of the tool the runner invoked for a call. *)

Record FunctionCall : Type := {
  fc_name : string;
  fc_args : option (gmap string PyVal)
}.

Record Part : Type := {
  text : option string;
  function_call : option FunctionCall;
  function_response : option ToolResult
}.

Record Content : Type := {
  parts : option (list Part)
}.

Record Event : Type := {
  content : option Content;
  is_final_response : bool
}.

(** Python's [int] on a string is left to the interpreter. *)
Class PyBuiltins : Type := {
  int_of_str : string -> option Z
}.

Section Invoker.
Context `{PyBuiltins}.

(** [int(v)] *)
Definition py_int (v : PyVal) : Res Z :=
  match v with
  | VInt z => Ret z
  | VBool b => Ret (if b then 1 else 0)
  | VStr s => match int_of_str s with
              | Some z => Ret z
              | None => Raise ValueError
              end
  | VNone => Raise TypeError
  end.

(** ** main_mission.py / evaluate_agent.py: extracting the decision *)

Record Decision : Type := {
  action : PyVal;
  duration : Z;
  reasoning : PyVal
}.

Definition fallback_decision : Decision :=
  {| action := VStr "HOLD"; duration := 1; reasoning := VStr "Fallback" |}.

(** The dictionary built from the arguments of a function call. *)
Definition decision_of_call (fn : FunctionCall) : Res Decision :=
  match fc_args fn with
  | None => Raise AttributeError
  | Some args =>
      let a := default (VStr "HOLD") (args !! "action") in
      let? d := py_int (default (VInt 1) (args !! "duration")) in
      Ret {| action := a;
             duration := d;
             reasoning := default (VStr "No reasoning provided")
                                  (args !! "reasoning") |}
  end.

(** The inner loop over the parts of one event: the first part with a
    function call decides and breaks. *)
Fixpoint scan_parts (ps : list Part) : option (Res Decision) :=
  match ps with
  | [] => None
  | part :: rest =>
      match function_call part with
      | Some fn => Some (decision_of_call fn)
      | None => scan_parts rest
      end
  end.

(** [event.content and event.content.parts], as the list to iterate. *)
Definition event_parts (event : Event) : list Part :=
  match content event with
  | Some c => default [] (parts c)
  | None => []
  end.

(** The outer loop over the events, with its [found] flag. *)
Fixpoint scan_events (events : list Event) (decision : Decision)
    : Res Decision :=
  match events with
  | [] => Ret decision
  | event :: rest =>
      match scan_parts (event_parts event) with
      | Some r => r
      | None => scan_events rest decision
      end
  end.

(** The commander call under [asyncio.wait_for]: a timeout leaves an empty
    event list, any other exception propagates. *)
Definition events_of_call (reply : Res (list Event)) : Res (list Event) :=
  match reply with
  | Raise TimeoutError => Ret []
  | other => other
  end.

Definition decide_maneuver (reply : Res (list Event)) : Res Decision :=
  let decision := fallback_decision in
  let? events := events_of_call reply in
  scan_events events decision.

End Invoker.

(** ** lunar_tools.py: the lander interface

    Rewards and state components are the floating-point numbers of the
    simulation; the code only adds them, compares them with integer
    literals, tests them for truth and formats them, so they are kept
    abstract behind these operations. *)

Class Number (R : Type) : Type := {
  r_zero : R;
  r_add : R -> R -> R;
  r_ge : R -> Z -> bool;
  r_le : R -> Z -> bool;
  r_bool : R -> bool;
  r_fmt2f : R -> string
}.

(** The state vector: [x, y, vx, vy, angle, angular_vel, leg1, leg2]. *)
Record StateVec (R : Type) : Type := {
  s0 : R; s1 : R; s2 : R; s3 : R; s4 : R; s5 : R; s6 : R; s7 : R
}.
Arguments s0 {R} _. Arguments s1 {R} _. Arguments s2 {R} _.
Arguments s3 {R} _. Arguments s4 {R} _. Arguments s5 {R} _.
Arguments s6 {R} _. Arguments s7 {R} _.

(** The external process: [reset], [step] and [render] of the simulation.
    [step] returns the next state, the reward, and the two flags
    [terminated] and [truncated], or raises. *)
Class Gym (E R : Type) : Type := {
  Frame : Type;
  env_reset : E -> E * StateVec R;
  env_step : E -> Z -> Res (E * StateVec R * R * bool * bool);
  env_render : E -> option Frame
}.

Section Lander.
Context {E R : Type} `{Number R} `{Gym E R}.

Record LunarLanderInterface : Type := {
  env : E;
  current_state : StateVec R;
  total_reward : R;
  steps : Z;
  done : bool;
  frames : list Frame
}.

(** [LunarLanderInterface.__init__], from the environment [gym.make] built. *)
Definition new_lander (e : E) : LunarLanderInterface :=
  let '(e', s) := env_reset e in
  {| env := e'; current_state := s; total_reward := r_zero; steps := 0;
     done := false; frames := [] |}.

Record Telemetry : Type := {
  altitude : R;
  horizontal_position : R;
  vertical_velocity : R;
  horizontal_velocity : R;
  angle : R;
  angular_velocity : R;
  left_leg_contact : bool;
  right_leg_contact : bool;
  steps_taken : Z
}.

Definition get_telemetry (self : LunarLanderInterface) : Telemetry :=
  let s := current_state self in
  {| altitude := s1 s;
     horizontal_position := s0 s;
     vertical_velocity := s3 s;
     horizontal_velocity := s2 s;
     angle := s4 s;
     angular_velocity := s5 s;
     left_leg_contact := r_bool (s6 s);
     right_leg_contact := r_bool (s7 s);
     steps_taken := steps self |}.

Definition get_telemetry_description (self : LunarLanderInterface) : string :=
  let t := get_telemetry self in
  let desc := "Altitude: " +:+ r_fmt2f (altitude t) +:+ ". " in
  let desc := desc +:+ "Position X: " +:+ r_fmt2f (horizontal_position t)
                   +:+ " (0 is center). " in
  let desc := desc +:+ "Vertical Velocity: " +:+ r_fmt2f (vertical_velocity t)
                   +:+ " (Negative is falling). " in
  let desc := desc +:+ "Horizontal Velocity: "
                   +:+ r_fmt2f (horizontal_velocity t) +:+ ". " in
  let desc := desc +:+ "Angle: " +:+ r_fmt2f (angle t) +:+ " radians. " in
  let status :=
    if left_leg_contact t || right_leg_contact t
    then "Touchdown imminent/Landed" else "Flying" in
  desc +:+ "Status: " +:+ status +:+ ".".

Record ExecutionResult : Type := {
  final_telemetry : Telemetry;
  reward_accumulated : R;
  result_done : bool;
  action_executed : PyVal;
  result_duration : Z
}.

(** One frame of the burst: the body of the [for] loop after the [done]
    test. *)
Definition step_frame (self : LunarLanderInterface) (action_code : Z)
    : Res (LunarLanderInterface * R) :=
  let? out := env_step (env self) action_code in
  let '(e', next_state, reward, terminated, truncated) := out in
  Ret ({| env := e';
          current_state := next_state;
          total_reward := r_add (total_reward self) reward;
          steps := steps self + 1;
          done := terminated || truncated;
          frames := match env_render e' with
                    | Some frame => (frames self ++ [frame])%list
                    | None => frames self
                    end |},
       reward).

(** [for _ in range(duration)]: [n] is the number of iterations left.  The
    lander comes back also when a frame raises, as the object keeps the
    mutations of the frames before. *)
Fixpoint burst (n : nat) (action_code : Z) (self : LunarLanderInterface)
    (step_rewards : R) : LunarLanderInterface * Res R :=
  match n with
  | O => (self, Ret step_rewards)
  | S n' =>
      if done self then (self, Ret step_rewards)
      else match step_frame self action_code with
           | Raise e => (self, Raise e)
           | Ret (self', reward) =>
               burst n' action_code self' (r_add step_rewards reward)
           end
  end.

Definition execute_maneuver (self : LunarLanderInterface)
    (action_name : PyVal) (duration : Z)
    : LunarLanderInterface * Res ExecutionResult :=
  let action_code := action_code action_name in
  let '(self', r) := burst (Z.to_nat duration) action_code self r_zero in
  (self',
   let? step_rewards := r in
   Ret {| final_telemetry := get_telemetry self';
          reward_accumulated := step_rewards;
          result_done := done self';
          action_executed := action_name;
          result_duration := duration |}).

End Lander.

Arguments LunarLanderInterface E R {_}.
Arguments Telemetry : clear implicits.
Arguments ExecutionResult : clear implicits.

(** ** The application and runner objects the two programs configure *)

Record EventsCompactionConfig : Type := {
  compaction_interval : Z;
  overlap_size : Z
}.

Record App : Type := {
  app_name : string;
  root_agent : LlmAgent;
  events_compaction_config : option EventsCompactionConfig
}.

(** The keyword arguments a [Runner] is built from (the session service,
    shared by both runners, is left out). *)
Record Runner : Type := {
  runner_app : option App;
  runner_agent : option LlmAgent;
  runner_app_name : option string
}.

(** The compaction configuration a runner was given: the one of the
    application it was built with, none when it was built from an agent and
    an application name only. *)
Definition runner_compaction (r : Runner) : option EventsCompactionConfig :=
  app ← runner_app r; events_compaction_config app.

Inductive Role : Type := Navigator | Commander.

(** The set-up of one program: its application and its two runners. *)
Definition mission_app (name : string) : App :=
  {| app_name := name;
     root_agent := agents.create_navigator_agent;
     events_compaction_config :=
       Some {| compaction_interval := 10; overlap_size := 2 |} |}.

Definition navigator_runner (name : string) : Runner :=
  {| runner_app := Some (mission_app name);
     runner_agent := None;
     runner_app_name := None |}.

Definition commander_runner (name : string) : Runner :=
  {| runner_app := None;
     runner_agent := Some agents.create_commander_agent;
     runner_app_name := Some name |}.

Definition runner_of (name : string) (role : Role) : Runner :=
  match role with
  | Navigator => navigator_runner name
  | Commander => commander_runner name
  end.

(** The session each role converses in. *)
Definition session_id_of (session_id : string) (role : Role) : string :=
  match role with
  | Navigator => session_id
  | Commander => session_id +:+ "_commander"
  end.

(** ** main_mission.py and evaluate_agent.py: the turn loop *)

(** The two conversations of a turn, as the runners answer them: the turn
    number and the message sent give the events yielded, or the exception
    raised while waiting for them ([TimeoutError] when [asyncio.wait_for]
    gives up). *)
Record Services : Type := {
  navigator_run : Z -> string -> Res (list Event);
  commander_run : Z -> string -> Res (list Event)
}.

Definition nl : string := String (Ascii.ascii_of_nat 10) "".
Definition indent : string := "            ".

(** [str(advice)] inside an f-string *)
Definition py_str (o : option string) : string :=
  match o with
  | Some s => s
  | None => "None"
  end.

Definition commander_prompt (telemetry_desc : string) (advice : option string)
    : string :=
  nl +:+ indent +:+ "Current Telemetry: " +:+ telemetry_desc
  +:+ nl +:+ indent +:+ "Navigator Advice: " +:+ py_str advice
  +:+ nl +:+ indent
  +:+ nl +:+ indent
  +:+ "Determine the best maneuver and execute it using the execute_maneuver tool."
  +:+ nl +:+ indent.

(** The loop over the navigator's events: every final response with parts
    overwrites the advice with the text of its first part. *)
Fixpoint read_advice (events : list Event) (advice : option string)
    : option string :=
  match events with
  | [] => advice
  | event :: rest =>
      read_advice rest
        (if is_final_response event then
           match event_parts event with
           | part :: _ => text part
           | [] => advice
           end
         else advice)
  end.

Section Mission.
Context {E R : Type} `{PyBuiltins} `{Number R} `{Gym E R}.

Record TurnRecord : Type := {
  step : Z;
  telemetry : string;
  navigator_advice : option string;
  commander_decision : Decision;
  execution_result : ExecutionResult R
}.

(** The local variables of the loop. *)
Record MissionState : Type := {
  lander : LunarLanderInterface E R;
  mission_log : list TurnRecord;
  episode_reward : R;
  step_count : Z
}.

Definition start (l : LunarLanderInterface E R) : MissionState :=
  {| lander := l; mission_log := []; episode_reward := r_zero;
     step_count := 0 |}.

(** The body of the [while] loop.  The state comes back also when the turn
    raises: the counter is already incremented, the lander keeps what the
    frames before the fault did, and the log is as it was. *)
Definition turn (svc : Services) (st : MissionState)
    : MissionState * Res unit :=
  let step_count' := step_count st + 1 in
  let st1 := {| lander := lander st; mission_log := mission_log st;
                episode_reward := episode_reward st;
                step_count := step_count' |} in
  let telemetry_desc := get_telemetry_description (lander st) in
  match navigator_run svc step_count' telemetry_desc with
  | Raise e => (st1, Raise e)
  | Ret nav_events =>
      let advice := read_advice nav_events (Some "") in
      match decide_maneuver
              (commander_run svc step_count'
                 (commander_prompt telemetry_desc advice)) with
      | Raise e => (st1, Raise e)
      | Ret decision =>
          let '(lander', r) :=
            execute_maneuver (lander st) (action decision)
                             (duration decision) in
          match r with
          | Raise e =>
              ({| lander := lander'; mission_log := mission_log st;
                  episode_reward := episode_reward st;
                  step_count := step_count' |}, Raise e)
          | Ret result =>
              let log_entry :=
                {| step := step_count';
                   telemetry := telemetry_desc;
                   navigator_advice := advice;
                   commander_decision := decision;
                   execution_result := result |} in
              ({| lander := lander';
                  mission_log := (mission_log st ++ [log_entry])%list;
                  episode_reward :=
                    r_add (episode_reward st) (reward_accumulated result);
                  step_count := step_count' |}, Ret ())
          end
      end
  end.

(** [while not lander.done and step_count < max_steps], unrolled at most
    [fuel] times; the exception that ended the loop, if one did. *)
Fixpoint mission_loop (fuel : nat) (svc : Services) (max_steps : Z)
    (st : MissionState) : MissionState * option PyExc :=
  match fuel with
  | O => (st, None)
  | S fuel' =>
      if negb (done (lander st)) && (step_count st <? max_steps) then
        match turn svc st with
        | (st', Raise e) => (st', Some e)
        | (st', Ret _) => mission_loop fuel' svc max_steps st'
        end
      else (st, None)
  end.

(** What the program leaves behind outside its return value. *)
Inductive Effect : Type :=
  | WriteLog (filename : string) (log : list TurnRecord)
  | SaveVideo (filename : string) (video : list Frame)
  | CloseEnv.

(** [lander.save_video]: nothing is written without frames. *)
Definition save_video (self : LunarLanderInterface E R) (filename : string)
    : list Effect :=
  match frames self with
  | [] => []
  | fs => [SaveVideo filename fs]
  end.

(** *** main_mission.py *)

(** The dictionary [main] returns; a key that is absent is [None]. *)
Record MissionResult : Type := {
  status : string;
  error : option string;
  mr_total_reward : option R;
  mr_steps : option Z;
  mr_log : option (list TurnRecord)
}.

Definition result_status (total : R) : string :=
  if r_ge total 200 then "SUCCESS"
  else if r_le total (-100) then "CRASH"
  else "INCOMPLETE".

(** [main], from the environment [gym.make] would build.  The second
    component lists the effects in the order they happen. *)
Definition main_mission (api_key : option string) (svc : Services) (e : E)
    : Res MissionResult * list Effect :=
  match api_key with
  | None | Some "" =>
      (Ret {| status := "ABORTED"; error := Some "No API key";
              mr_total_reward := None; mr_steps := None; mr_log := None |},
       [])
  | Some _ =>
      let max_steps := 100 in
      let '(st, exc) :=
        mission_loop (Z.to_nat max_steps) svc max_steps
                     (start (new_lander e)) in
      let finally :=
        ([WriteLog "mission_log.json" (mission_log st)]
         ++ save_video (lander st) "mission_replay.mp4"
         ++ [CloseEnv])%list in
      match exc with
      | None =>
          (Ret {| status := result_status (total_reward (lander st));
                  error := None;
                  mr_total_reward := Some (episode_reward st);
                  mr_steps := Some (step_count st);
                  mr_log := Some (mission_log st) |},
           finally)
      | Some KeyboardInterrupt =>
          (Ret {| status := "ABORTED"; error := None;
                  mr_total_reward := Some (episode_reward st);
                  mr_steps := Some (step_count st);
                  mr_log := None |},
           finally)
      | Some exc => (Raise exc, finally)
      end
  end.

(** *** evaluate_agent.py *)

Record EpisodeResult : Type := {
  episode_id : Z;
  er_total_reward : R;
  er_steps : Z;
  success : bool;
  er_log : list TurnRecord
}.

Definition run_episode (episode_id : Z) (svc : Services) (e : E)
    : Res EpisodeResult * list Effect :=
  let max_steps := 80 in
  let '(st, exc) :=
    mission_loop (Z.to_nat max_steps) svc max_steps (start (new_lander e)) in
  let finally := [CloseEnv] in
  let returned :=
    Ret {| episode_id := episode_id;
           er_total_reward := episode_reward st;
           er_steps := step_count st;
           success := r_ge (episode_reward st) 200;
           er_log := mission_log st |} in
  match exc with
  | None => (returned, finally)
  | Some exc =>
      if is_Exception exc then (returned, finally)
      else (Raise exc, finally)
  end.

End Mission.

(** ** lunar_tools.py: [reset] *)

Section Reset.
Context {E R : Type} `{Number R} `{Gym E R}.

(** [LunarLanderInterface.reset]: the lander after it, and the telemetry
    returned. *)
Definition reset (self : LunarLanderInterface E R)
    : LunarLanderInterface E R * Telemetry R :=
  let '(e', s) := env_reset (env self) in
  let self' :=
    {| env := e'; current_state := s; total_reward := r_zero; steps := 0;
       done := false; frames := [] |} in
  (self', get_telemetry self').

End Reset.

(** ** lunar_env_wrapper.py

    The wrapper sits on an environment of the older interface, whose [step]
    returns four values.  Keyword arguments of [reset] are left out. *)

Class OldGym (E S A R I : Type) : Type := {
  old_reset : E -> E * S;
  old_step : E -> A -> Res (E * S * R * bool * I)
}.

Module lunar_env_wrapper.
Section Wrapper.
Context {E S A R I : Type} `{OldGym E S A R I}.

(** The custom reward function is called with the wrapper's current state,
    which is [None] until the first [reset] or [step]. *)
Record LunarEnvWrapper : Type := {
  env : E;
  custom_reward_func : option (option S -> A -> R -> S -> bool -> R);
  current_state : option S
}.

Definition init (e : E)
    (custom_reward_func : option (option S -> A -> R -> S -> bool -> R))
    : LunarEnvWrapper :=
  {| env := e; custom_reward_func := custom_reward_func;
     current_state := None |}.

Definition reset (self : LunarEnvWrapper) : LunarEnvWrapper * S :=
  let '(e', s) := old_reset (env self) in
  ({| env := e'; custom_reward_func := custom_reward_func self;
      current_state := Some s |}, s).

Definition step (self : LunarEnvWrapper) (action : A)
    : LunarEnvWrapper * Res (S * R * bool * I) :=
  match old_step (env self) action with
  | Raise exc => (self, Raise exc)
  | Ret (e', next_state, reward, done, info) =>
      let reward :=
        match custom_reward_func self with
        | Some func => func (current_state self) action reward next_state done
        | None => reward
        end in
      ({| env := e'; custom_reward_func := custom_reward_func self;
          current_state := Some next_state |},
       Ret (next_state, reward, done, info))
  end.

(** What a caller sees when it steps through a list of actions, up to the
    first step that raises. *)
Fixpoint run (self : LunarEnvWrapper) (actions : list A)
    : list (S * R * bool * I) :=
  match actions with
  | [] => []
  | action :: rest =>
      match step self action with
      | (self', Ret out) => out :: run self' rest
      | (_, Raise _) => []
      end
  end.

(** The same on the environment itself. *)
Fixpoint env_run (e : E) (actions : list A) : list (S * R * bool * I) :=
  match actions with
  | [] => []
  | action :: rest =>
      match old_step e action with
      | Ret (e', next_state, reward, done, info) =>
          (next_state, reward, done, info) :: env_run e' rest
      | Raise _ => []
      end
  end.

(** The rewards of a run replaced by what a reward function makes of them,
    each from the state before its step. *)
Fixpoint shaped (func : option S -> A -> R -> S -> bool -> R)
    (before : option S) (actions : list A) (outs : list (S * R * bool * I))
    : list (S * R * bool * I) :=
  match actions, outs with
  | action :: actions', (next_state, reward, done, info) :: outs' =>
      (next_state, func before action reward next_state done, done, info)
      :: shaped func (Some next_state) actions' outs'
  | _, _ => []
  end.

End Wrapper.
End lunar_env_wrapper.

(** ** evaluate_agent.py: [main] *)

(** [numpy.mean] over the rewards and over the success flags, and the
    product with 100. *)
Class Stats (R : Type) : Type := {
  np_mean : list R -> R;
  np_mean_bool : list bool -> R;
  r_times_100 : R -> R
}.

Section Evaluation.
Context {E R : Type} `{PyBuiltins} `{Number R} `{Gym E R} `{Stats R}.

Record EvaluationReport : Type := {
  average_reward : R;
  success_rate : R;
  episodes : list (EpisodeResult (R := R))
}.

(** The effects of the evaluation: those of its episodes, and the report
    file. *)
Inductive EvalEffect : Type :=
  | InEpisode (episode : Z) (effect : Effect (E := E) (R := R))
  | WriteReport (filename : string) (report : EvaluationReport).

Definition NUM_EPISODES : Z := 3.

(** [for i in range(1, NUM_EPISODES + 1)], over the list of the [i]s left.
    Each episode has its own environment and its own conversations. *)
Fixpoint run_episodes (ids : list Z) (svc : Z -> Services) (make : Z -> E)
    (results : list EpisodeResult) (effects : list EvalEffect)
    : Res (list EpisodeResult) * list EvalEffect :=
  match ids with
  | [] => (Ret results, effects)
  | i :: rest =>
      let '(r, effs) := run_episode i (svc i) (make i) in
      let effects := (effects ++ (InEpisode i <$> effs))%list in
      match r with
      | Raise exc => (Raise exc, effects)
      | Ret result =>
          run_episodes rest svc make (results ++ [result])%list effects
      end
  end.

Definition evaluate_main (api_key : option string) (svc : Z -> Services)
    (make : Z -> E) : Res () * list EvalEffect :=
  match api_key with
  | None | Some "" => (Ret (), [])
  | Some _ =>
      match run_episodes (seqZ 1 NUM_EPISODES) svc make [] [] with
      | (Raise exc, effects) => (Raise exc, effects)
      | (Ret results, effects) =>
          let rewards := er_total_reward <$> results in
          let successes := success <$> results in
          let avg_reward := np_mean rewards in
          let success_rate := r_times_100 (np_mean_bool successes) in
          let report :=
            {| average_reward := avg_reward;
               success_rate := success_rate;
               episodes := results |} in
          (Ret (),
           (effects ++ [WriteReport "evaluation_report.json" report])%list)
      end
  end.

End Evaluation.

(** ** mission_report.py *)

Definition dq : string := String (Ascii.ascii_of_nat 34) "".

(** [str(v)] of a value that came back from the JSON log. *)
Definition py_str_val (v : PyVal) : string :=
  match v with
  | VNone => "None"
  | VBool true => "True"
  | VBool false => "False"
  | VInt z => pretty z
  | VStr s => s
  end.

Section Report.
Context {R : Type} `{Number R}.

(** The body of the loop over the log entries. *)
Definition report_entry (report : string)
    (entry : TurnRecord (R := R)) : string :=
  let step := step entry in
  let telemetry := telemetry entry in
  let advice := navigator_advice entry in
  let decision := commander_decision entry in
  let result := execution_result entry in
  let report := report +:+ "### T-Minus " +:+ pretty step +:+ nl in
  let report := report +:+ "**Telemetry**: " +:+ telemetry +:+ nl +:+ nl in
  let report := report +:+ "**Navigator**: *" +:+ dq +:+ py_str advice
                       +:+ dq +:+ "*" +:+ nl +:+ nl in
  let report := report +:+ "**Commander**: **"
                       +:+ py_str_val (action decision) +:+ "** ("
                       +:+ pretty (duration decision) +:+ " frames)" +:+ nl in
  let report := report +:+ "> *Reasoning: "
                       +:+ py_str_val (reasoning decision) +:+ "*"
                       +:+ nl +:+ nl in
  let report := report +:+ "**Outcome**: Altitude "
                       +:+ r_fmt2f (altitude (final_telemetry result))
                       +:+ " | Reward: "
                       +:+ r_fmt2f (reward_accumulated result) +:+ nl in
  report +:+ "---" +:+ nl.

(** [generate_report], from the content of the log file ([None] when the
    file is missing): the text written to the report file, if any. *)
Definition generate_report
    (log_file : option (list (TurnRecord (R := R)))) : option string :=
  match log_file with
  | None => None
  | Some logs =>
      let report := "# Mission Report: Project Armstrong" +:+ nl +:+ nl in
      let report := report +:+ "## Flight Transcript" +:+ nl +:+ nl in
      Some (foldl report_entry report logs)
  end.

End Report.

(** ** What the properties are stated with *)

(** The action vocabulary and the duration bounds of the tool's contract. *)
Definition in_vocabulary (a : string) : Prop :=
  a = "MAIN_ENGINE" \/ a = "LEFT_ENGINE" \/ a = "RIGHT_ENGINE" \/ a = "HOLD".

Definition valid_decision (d : Decision) : Prop :=
  (exists a, action d = VStr a /\ in_vocabulary a) /\ 1 <= duration d <= 10.

(** All function calls of a response, in event order and, inside an event,
    in part order. *)
Definition function_calls (events : list Event) : list FunctionCall :=
  events ≫= (fun event => omap function_call (event_parts event)).

(** The texts the navigator's final responses carry: for every final
    response that has parts, the text of its first part, in event order. *)
Definition final_texts (events : list Event) : list (option string) :=
  omap (fun event =>
          if is_final_response event then
            match event_parts event with
            | part :: _ => Some (text part)
            | [] => None
            end
          else None) events.

(** The rewards the records of a log report, in order. *)
Definition log_rewards {R : Type} (log : list (TurnRecord (R := R)))
    : list R :=
  (fun rec => reward_accumulated (execution_result rec)) <$> log.

Section Process.
Context {E R : Type} `{Gym E R}.

(** The frames the process yields when it is stepped [n] times with one
    action code: the reward and whether the frame was terminal
    ([terminated or truncated]).  The list ends where a step raises. *)
Fixpoint env_trace (n : nat) (e : E) (code : Z) : list (R * bool) :=
  match n with
  | O => []
  | S n' =>
      match env_step e code with
      | Raise _ => []
      | Ret (e', _, reward, terminated, truncated) =>
          (reward, terminated || truncated) :: env_trace n' e' code
      end
  end.

(** The frames up to and including the first terminal one. *)
Fixpoint until_terminal (tr : list (R * bool)) : list (R * bool) :=
  match tr with
  | [] => []
  | (reward, true) :: _ => [(reward, true)]
  | (reward, false) :: rest => (reward, false) :: until_terminal rest
  end.

End Process.

(** ** A scripted process, for concrete runs

    The environment is the list of the frames it has left, each a reward
    and a terminal flag; stepping past the end of the script raises.
    Numbers are integers. *)

Global Instance Z_Number : Number Z := {|
  r_zero := 0;
  r_add := Z.add;
  r_ge := fun r n => n <=? r;
  r_le := fun r n => r <=? n;
  r_bool := fun r => negb (r =? 0);
  r_fmt2f := fun r => pretty r +:+ ".00"
|}.

Definition origin : StateVec Z :=
  {| s0 := 0; s1 := 0; s2 := 0; s3 := 0; s4 := 0; s5 := 0; s6 := 0; s7 := 0 |}.

Global Instance Script_Gym : Gym (list (Z * bool)) Z := {|
  Frame := unit;
  env_reset := fun e => (e, origin);
  env_step := fun e _ =>
    match e with
    | [] => Raise (ProcessFault "end of script")
    | (reward, terminated) :: e' => Ret (e', origin, reward, terminated, false)
    end;
  env_render := fun _ => Some ()
|}.

(** No string converts to an integer. *)
Global Instance no_int_of_str : PyBuiltins := {|
  int_of_str := fun _ => None
|}.

Definition text_event (s : string) : Event :=
  {| content := Some {| parts := Some [{| text := Some s;
                                          function_call := None;
                                          function_response := None |}] |};
     is_final_response := true |}.

Definition call_part (a : PyVal) (d : PyVal) (why : string) : Part :=
  {| text := None;
     function_call :=
       Some {| fc_name := "execute_maneuver";
               fc_args := Some {[ "action" := a; "duration" := d;
                                  "reasoning" := VStr why ]} |};
     function_response := None |}.

Definition call_event (a : PyVal) (d : PyVal) (why : string) : Event :=
  {| content := Some {| parts := Some [call_part a d why] |};
     is_final_response := false |}.

(** A commander that always answers with the same events. *)
Definition scripted (cmd : Res (list Event)) : Services :=
  {| navigator_run := fun _ _ => Ret [text_event "Decelerate."];
     commander_run := fun _ _ => cmd |}.

(** Forty-nine quiet frames and a terminal one. *)
Definition fifty_frames : list (Z * bool) :=
  (replicate 49 (1, false) ++ [(1, true)])%list.

(** A response with free text and two tool calls. *)
Definition brake_call : FunctionCall :=
  {| fc_name := "execute_maneuver";
     fc_args := Some {[ "action" := VStr "MAIN_ENGINE"; "duration" := VInt 5;
                        "reasoning" := VStr "braking" ]} |}.

Definition hold_call : FunctionCall :=
  {| fc_name := "execute_maneuver";
     fc_args := Some {[ "action" := VStr "HOLD"; "duration" := VInt 2;
                        "reasoning" := VStr "coasting" ]} |}.

Definition event_of_call (fn : FunctionCall) : Event :=
  {| content := Some {| parts := Some [{| text := None;
                                          function_call := Some fn;
                                          function_response := None |}] |};
     is_final_response := false |}.

Definition two_calls : list Event :=
  [text_event "Braking now."; event_of_call brake_call;
   event_of_call hold_call].

(** A process that ends on its second frame. *)
Definition early_stop : list (Z * bool) := [(3, false); (4, true); (5, false)].

(** A reasoning service that fails from the second turn on. *)
Definition failing_service : Services :=
  {| navigator_run := fun _ _ => Ret [text_event "Decelerate."];
     commander_run := fun n _ =>
       if n =? 1 then Ret [call_event (VStr "HOLD") (VInt 1) "wait"]
       else Raise (ServiceError "503") |}.

(** A commander that asks for an action outside the vocabulary and a
    duration outside the bounds. *)
Definition warp_service : Services :=
  scripted (Ret [call_event (VStr "WARP") (VInt 50) "go"]).

(** Integer statistics for the scripted runs. *)
Global Instance Z_Stats : Stats Z := {|
  np_mean := fun l => foldr Z.add 0 l / Z.of_nat (length l);
  np_mean_bool := fun l =>
    Z.of_nat (length (filter (fun b => b = true) l)) / Z.of_nat (length l);
  r_times_100 := fun r => r * 100
|}.

(** The text the report spends on the entries of a log. *)
Definition report_sections {R : Type} `{Number R}
    (logs : list (TurnRecord (R := R))) : string :=
  foldl report_entry "" logs.

(** A scripted environment of the older interface: the state is the
    number of steps taken, the script gives reward and done flag. *)
Global Instance Script_OldGym : OldGym (Z * list (Z * bool)) Z Z Z () := {|
  old_reset := fun e => ((0, e.2), 0);
  old_step := fun e _ =>
    match e.2 with
    | [] => Raise (ProcessFault "end of script")
    | (reward, done) :: rest =>
        Ret ((e.1 + 1, rest), e.1 + 1, reward, done, ())
    end
|}.

(** A reward function that adds the action and, when there is one, the
    state before the step. *)
Definition bonus (before : option Z) (action reward next_state : Z)
    (done : bool) : Z :=
  reward + action + default 0 before.

(** A process that raises on its second step. *)
Definition one_frame : list (Z * bool) := [(3, false)].

(** * Properties *)

(** ** The action validator *)

Lemma elem_of_valid_actions (a : string) :
  a ∈ agents.valid_actions <-> in_vocabulary a.
Proof.
  unfold agents.valid_actions, in_vocabulary.
  rewrite !elem_of_cons, elem_of_nil. tauto.
Qed.

Lemma bounds_reflect (d : Z) :
  (1 <=? d) && (d <=? 10) = true <-> 1 <= d <= 10.
Proof. rewrite andb_true_iff, !Z.leb_le. tauto. Qed.

(** C4: the validator answers with a success exactly for an action of the
    vocabulary and a duration between 1 and 10; every other candidate gets
    an error result, and a success always carries the candidate's own
    action, duration and reasoning, unchanged. *)
Theorem C4_validator_accepts_iff (a : string) (d : Z) (why : string) :
  (agents.execute_maneuver a d why = ToolSuccess a d why
     <-> in_vocabulary a /\ 1 <= d <= 10)
  /\ ((exists msg, agents.execute_maneuver a d why = ToolError msg)
     <-> ~ (in_vocabulary a /\ 1 <= d <= 10))
  /\ (forall a' d' why',
        agents.execute_maneuver a d why = ToolSuccess a' d' why' ->
        a' = a /\ d' = d /\ why' = why).
Proof.
  pose proof (elem_of_valid_actions a) as Hvoc.
  pose proof (bounds_reflect d) as Hdur.
  unfold agents.execute_maneuver.
  destruct (bool_decide_reflect (a ∈ agents.valid_actions))
    as [Hin | Hout]; simpl.
  - destruct ((1 <=? d) && (d <=? 10)) eqn:Hb; simpl.
    + split; [tauto |]. split.
      * split; [intros [msg Hmsg]; discriminate | tauto].
      * intros a' d' why' Heq. injection Heq as <- <- <-. auto.
    + assert (~ 1 <= d <= 10) as Hbad
        by (intros Hd; apply Hdur in Hd; congruence).
      split; [split; [discriminate | tauto] |]. split.
      * split; [tauto | eauto].
      * discriminate.
  - assert (~ in_vocabulary a) as Hbad by tauto.
    split; [split; [discriminate | tauto] |]. split.
    + split; [tauto | eauto].
    + discriminate.
Qed.

(** ** The action table *)

Lemma action_map_lookup (s : string) :
  action_map !! s =
    if decide (s = "HOLD") then Some 0
    else if decide (s = "MAIN_ENGINE") then Some 2
    else if decide (s = "LEFT_ENGINE") then Some 3
    else if decide (s = "RIGHT_ENGINE") then Some 1
    else None.
Proof.
  unfold action_map.
  repeat (rewrite lookup_insert; case_decide; subst;
          [ repeat (case_decide; try done) | ]).
  rewrite lookup_singleton. repeat (case_decide; try done).
Qed.

(** C8: the executor's table sends HOLD to 0, MAIN_ENGINE to 2,
    RIGHT_ENGINE to 1 and LEFT_ENGINE to 3, and no other name shares the
    codes 1, 2 and 3. *)
Theorem C8_action_codes :
  action_code (VStr "HOLD") = 0
  /\ action_code (VStr "MAIN_ENGINE") = 2
  /\ action_code (VStr "RIGHT_ENGINE") = 1
  /\ action_code (VStr "LEFT_ENGINE") = 3
  /\ (forall a, action_code a = 3 <-> a = VStr "LEFT_ENGINE")
  /\ (forall a, action_code a = 1 <-> a = VStr "RIGHT_ENGINE")
  /\ (forall a, action_code a = 2 <-> a = VStr "MAIN_ENGINE").
Proof.
  repeat split; try (vm_compute; reflexivity);
    try (intros ->; vm_compute; reflexivity).
  all: destruct a as [| b | z | s]; simpl; try discriminate.
  all: rewrite action_map_lookup.
  all: repeat (case_decide; subst; simpl; try discriminate; try reflexivity).
Qed.

(** An out-of-vocabulary action runs as the no-op. *)
Lemma action_code_outside (a : PyVal) :
  (forall s, a = VStr s -> ~ in_vocabulary s) -> action_code a = 0.
Proof.
  intros Hout. destruct a as [| b | z | s]; simpl; try reflexivity.
  specialize (Hout s eq_refl). unfold in_vocabulary in Hout.
  rewrite action_map_lookup.
  repeat (case_decide; subst; simpl; try reflexivity; try tauto).
Qed.

(** ** The decision invoker *)

Section InvokerFacts.
Context `{PyBuiltins}.

Lemma scan_parts_first (ps : list Part) :
  scan_parts ps =
    match omap function_call ps with
    | [] => None
    | fn :: _ => Some (decision_of_call fn)
    end.
Proof.
  induction ps as [| part rest IH]; simpl; [reflexivity |].
  destruct (function_call part) as [fn |]; simpl; [reflexivity | exact IH].
Qed.

Lemma function_calls_cons (event : Event) (rest : list Event) :
  function_calls (event :: rest) =
    (omap function_call (event_parts event) ++ function_calls rest)%list.
Proof. reflexivity. Qed.

Lemma scan_events_first (events : list Event) (decision : Decision) :
  scan_events events decision =
    match function_calls events with
    | [] => Ret decision
    | fn :: _ => decision_of_call fn
    end.
Proof.
  induction events as [| event rest IH]; [reflexivity |].
  rewrite function_calls_cons. simpl scan_events.
  rewrite scan_parts_first.
  destruct (omap function_call (event_parts event)) as [| fn fns]; simpl.
  - exact IH.
  - reflexivity.
Qed.


(** C2, as the code has it: a timeout, or a response without any function
    call (free text only, or empty), gives exactly the default decision
    HOLD for 1 frame with the reasoning "Fallback"; a response with
    function calls, one or several, gives what its first call gives. *)
Theorem C2_fallback_without_call (reply : Res (list Event)) :
  (reply = Raise TimeoutError
   \/ exists events, reply = Ret events /\ function_calls events = []) ->
  decide_maneuver reply =
    Ret {| action := VStr "HOLD"; duration := 1;
           reasoning := VStr "Fallback" |}
  /\ (forall events fn later,
        function_calls events = fn :: later ->
        decide_maneuver (Ret events) = decision_of_call fn).
Proof.
  intros Hreply. split.
  - destruct Hreply as [-> | (events & -> & Hnone)].
    + reflexivity.
    + unfold decide_maneuver. simpl.
      rewrite scan_events_first, Hnone. reflexivity.
  - intros events fn later Hcalls. unfold decide_maneuver. simpl.
    rewrite scan_events_first, Hcalls. reflexivity.
Qed.

End InvokerFacts.


Lemma C2_fallback_without_call_witness :
  decide_maneuver (Ret [text_event "Holding seems wise."]) =
    Ret {| action := VStr "HOLD"; duration := 1;
           reasoning := VStr "Fallback" |}.
Proof.
  apply (C2_fallback_without_call (Ret [text_event "Holding seems wise."])).
  right. exists [text_event "Holding seems wise."].
  split; reflexivity.
Defined.

(** C2 as the specification words it fails twice: the default's reasoning
    is not the lower-case "fallback", and a response with two function
    calls does not give the default but the decision of its first call. *)
Lemma C2_counterexample :
  decide_maneuver (Raise TimeoutError) <>
    Ret {| action := VStr "HOLD"; duration := 1;
           reasoning := VStr "fallback" |}
  /\ decide_maneuver (Ret two_calls) <> Ret fallback_decision
  /\ decide_maneuver (Ret two_calls) =
       Ret {| action := VStr "MAIN_ENGINE"; duration := 5;
              reasoning := VStr "braking" |}.
Proof.
  split; [| split].
  - vm_compute. discriminate.
  - vm_compute. discriminate.
  - vm_compute. reflexivity.
Qed.

(** ** The action executor *)

Section TraceFacts.
Context {R : Type}.
Implicit Types tr : list (R * bool).

Lemma until_terminal_prefix tr : until_terminal tr `prefix_of` tr.
Proof.
  induction tr as [| [reward [|]] rest IH]; simpl.
  - reflexivity.
  - exists rest. reflexivity.
  - apply prefix_cons, IH.
Qed.

Lemma until_terminal_length tr :
  (length (until_terminal tr) <= length tr)%nat.
Proof. apply prefix_length, until_terminal_prefix. Qed.

(** Only the last of the frames run can be terminal. *)
Lemma until_terminal_quiet tr :
  Forall (fun f => f.2 = false) (removelast (until_terminal tr)).
Proof.
  induction tr as [| [reward [|]] rest IH]; simpl; try constructor.
  destruct (until_terminal rest) eqn:Hrun; constructor; auto.
Qed.

(** Without a terminal frame nothing is cut. *)
Lemma until_terminal_all tr :
  Forall (fun f => f.2 = false) tr -> until_terminal tr = tr.
Proof.
  induction 1 as [| [reward flag] rest Hflag _ IH]; simpl in *;
    [reflexivity |].
  subst flag. rewrite IH. reflexivity.
Qed.

(** With a terminal frame the run ends on it. *)
Lemma until_terminal_last tr :
  Exists (fun f => f.2 = true) tr ->
  snd <$> last (until_terminal tr) = Some true.
Proof.
  induction tr as [| [reward [|]] rest IH]; simpl; intros Hex.
  - inversion Hex.
  - reflexivity.
  - inversion Hex as [? ? Hhd | ? ? Htl]; subst; [discriminate |].
    specialize (IH Htl).
    destruct (until_terminal rest) as [| f fs]; [discriminate | exact IH].
Qed.

End TraceFacts.

Section LanderFacts.
Context {E R : Type} `{Number R} `{Gym E R}.
Implicit Types self : LunarLanderInterface E R.

Lemma burst_done n code self acc :
  done self = true -> burst n code self acc = (self, Ret acc).
Proof. intros Hdone. destruct n; simpl; [| rewrite Hdone]; reflexivity. Qed.

(** The burst against the trace of the process: as long as the process
    does not raise before the burst is over, the burst runs the frames up
    to the first terminal one. *)
Lemma burst_trace n code : forall self acc,
  done self = false ->
  let tr := env_trace n (env self) code in
  let ran := until_terminal tr in
  (length tr = n \/ Exists (fun f => f.2 = true) tr) ->
  exists self',
    burst n code self acc = (self', Ret (foldl r_add acc ran.*1))
    /\ steps self' = steps self + Z.of_nat (length ran)
    /\ total_reward self' = foldl r_add (total_reward self) ran.*1
    /\ done self' = default false (snd <$> last ran).
Proof.
  induction n as [| n IH]; intros self acc Hdone; simpl.
  - intros _. exists self. rewrite Hdone.
    repeat split; simpl; try reflexivity; lia.
  - rewrite Hdone. unfold step_frame.
    destruct (env_step (env self) code)
      as [exc | [[[[e' next_state] reward] terminated] truncated]]; simpl.
    + intros [Hlen | Hex]; [discriminate | inversion Hex].
    + set (self1 := {| env := e'; current_state := next_state;
                       total_reward := r_add (total_reward self) reward;
                       steps := steps self + 1;
                       done := terminated || truncated;
                       frames := _ |}).
      destruct (terminated || truncated) eqn:Hflag; simpl.
      * intros _. exists self1.
        rewrite burst_done by reflexivity.
        repeat split; simpl; try reflexivity; lia.
      * intros Hok.
        destruct (IH self1 (r_add acc reward) eq_refl)
          as (self' & Hb & Hs & Ht & Hd).
        { destruct Hok as [Hlen | Hex].
          - left. simpl in Hlen. simpl. lia.
          - right. inversion Hex as [? ? Hhd | ? ? Htl]; subst;
              [discriminate | exact Htl]. }
        exists self'. simpl in Hb, Hs, Ht, Hd.
        split; [exact Hb |]. split; [lia |]. split; [exact Ht |].
        rewrite Hd.
        destruct (until_terminal (env_trace n e' code)); reflexivity.
Qed.

(** The executor on a live process. *)
Lemma execute_maneuver_live self (a : PyVal) (d : Z) :
  1 <= d <= 10 ->
  done self = false ->
  let tr := env_trace (Z.to_nat d) (env self) (action_code a) in
  let ran := until_terminal tr in
  (length tr = Z.to_nat d \/ Exists (fun f => f.2 = true) tr) ->
  exists self' result,
    execute_maneuver self a d = (self', Ret result)
    /\ steps self' = steps self + Z.of_nat (length ran)
    /\ ran `prefix_of` tr
    /\ 1 <= Z.of_nat (length ran) <= d
    /\ Forall (fun f => f.2 = false) (removelast ran)
    /\ (Forall (fun f => f.2 = false) tr -> Z.of_nat (length ran) = d)
    /\ (Z.of_nat (length ran) < d -> result_done result = true)
    /\ result_done result = default false (snd <$> last ran)
    /\ reward_accumulated result = foldl r_add r_zero ran.*1.
Proof.
  intros Hd Hdone tr ran Hok.
  destruct (burst_trace (Z.to_nat d) (action_code a) self r_zero Hdone Hok)
    as (self' & Hb & Hs & _ & Hdn).
  fold tr in Hb, Hs, Hdn. fold ran in Hb, Hs, Hdn.
  assert (length tr <= Z.to_nat d)%nat as Htr.
  { subst tr. clear. generalize (env self). generalize (action_code a).
    induction (Z.to_nat d) as [| n IH]; intros code e; simpl; [lia |].
    destruct (env_step e code) as [exc | [[[[e' s'] r] t] u]]; simpl; [lia |].
    specialize (IH code e'). lia. }
  pose proof (until_terminal_length tr) as Hle. fold ran in Hle.
  assert (Forall (fun f => f.2 = false) tr -> Z.of_nat (length ran) = d)
    as Hall.
  { intros Hquiet. subst ran. rewrite (until_terminal_all tr Hquiet).
    destruct Hok as [Hlen | Hex]; [lia |].
    exfalso. apply Exists_exists in Hex as (f & Hin & Hf).
    rewrite Forall_forall in Hquiet. specialize (Hquiet f Hin). congruence. }
  assert (Z.of_nat (length ran) < d -> snd <$> last ran = Some true) as Hcut.
  { intros Hlt. apply until_terminal_last.
    destruct (Forall_Exists_dec (fun f : R * bool => f.2 = false)
                (fun f : R * bool => f.2 = true)
                (fun f => match f.2 as b return {b = false} + {b = true} with
                          | true => right eq_refl
                          | false => left eq_refl
                          end) tr) as [Hquiet | Hex]; [| exact Hex].
    exfalso.
    specialize (Hall Hquiet). lia. }
  exists self'.
  eexists. unfold execute_maneuver. rewrite Hb. simpl.
  split; [reflexivity |]. split; [exact Hs |].
  split; [apply until_terminal_prefix |].
  split.
  { split; [| lia].
    destruct (decide (length ran = 0%nat)) as [Hz | Hnz]; [| lia].
    exfalso. subst ran tr.
    destruct (Z.to_nat d) as [| n] eqn:Hn; [lia |]. simpl in *.
    destruct (env_step (env self) (action_code a))
      as [exc | [[[[e' s'] r] t] u]]; simpl in *.
    - destruct Hok as [Hlen | Hex]; [discriminate | inversion Hex].
    - destruct (t || u); simpl in Hz; discriminate. }
  split; [apply until_terminal_quiet |].
  split; [exact Hall |].
  split; [| split; [exact Hdn | reflexivity]].
  intros Hlt. rewrite Hdn, (Hcut Hlt). reflexivity.
Qed.

(** C3: a burst of [d] frames, 1 to 10, on a process that does not raise
    before the burst is over, returns one result.  The frames it ran are the
    process's frames up to the first terminal one (none when the process
    was already over): [d] of them unless a terminal state came earlier, in
    which case the burst stops there and the result reports [done]; the
    reward returned is the sum, in order, of the rewards of the frames
    run. *)
Theorem C3_burst_frames self (a : PyVal) (d : Z) :
  1 <= d <= 10 ->
  let tr := env_trace (Z.to_nat d) (env self) (action_code a) in
  let ran := if done self then [] else until_terminal tr in
  (done self = true
   \/ length tr = Z.to_nat d
   \/ Exists (fun f => f.2 = true) tr) ->
  exists self' result,
    execute_maneuver self a d = (self', Ret result)
    /\ steps self' = steps self + Z.of_nat (length ran)
    /\ ran `prefix_of` tr
    /\ 0 <= Z.of_nat (length ran) <= d
    /\ (done self = false -> 1 <= Z.of_nat (length ran))
    /\ Forall (fun f => f.2 = false) (removelast ran)
    /\ (done self = false ->
        Forall (fun f => f.2 = false) tr -> Z.of_nat (length ran) = d)
    /\ (Z.of_nat (length ran) < d -> result_done result = true)
    /\ result_done result = default (done self) (snd <$> last ran)
    /\ reward_accumulated result = foldl r_add r_zero ran.*1.
Proof.
  intros Hd tr ran Hok.
  destruct (done self) eqn:Hdone.
  - exists self. eexists. unfold execute_maneuver.
    rewrite burst_done by exact Hdone. simpl.
    split; [reflexivity |]. subst ran. simpl.
    split; [lia |]. split; [apply prefix_nil |].
    split; [lia |]. split; [discriminate |].
    split; [constructor |]. split; [discriminate |]. auto.
  - assert (length tr = Z.to_nat d \/ Exists (fun f => f.2 = true) tr)
      as Hlive by (destruct Hok as [Hf | Hok]; [discriminate | exact Hok]).
    destruct (execute_maneuver_live self a d Hd Hdone Hlive)
      as (self' & result & Hrun & Hsteps & Hpre & Hlen & Hquiet & Hall
          & Hcut & Hres & Hsum).
    fold tr in Hsteps, Hpre, Hlen, Hquiet, Hall, Hcut, Hres, Hsum.
    exists self', result. subst ran.
    split; [exact Hrun |]. split; [exact Hsteps |]. split; [exact Hpre |].
    split; [lia |]. split; [lia |]. split; [exact Hquiet |].
    split; [auto |]. split; [exact Hcut |]. split; [| exact Hsum].
    rewrite Hres.
    destruct (snd <$> last (until_terminal tr)) eqn:Hlast; [reflexivity |].
    exfalso. destruct (until_terminal tr) as [| f fs] eqn:Hran.
    + simpl in Hlen. lia.
    + destruct (last (f :: fs)) eqn:Hl; [discriminate |].
      apply last_None in Hl. discriminate.
Qed.

(** Whenever the executor returns, the result records the duration and the
    action that were requested. *)
Lemma execute_maneuver_records self (a : PyVal) (d : Z) :
  match (execute_maneuver self a d).2 with
  | Ret result => result_duration result = d /\ action_executed result = a
  | Raise _ => True
  end.
Proof.
  unfold execute_maneuver.
  destruct (burst (Z.to_nat d) (action_code a) self r_zero) as [self' [e | r]];
    simpl; auto.
Qed.

(** A burst never runs more frames than iterations. *)
Lemma burst_steps_bound n code : forall self acc,
  steps self <= steps (burst n code self acc).1 <= steps self + Z.of_nat n.
Proof.
  induction n as [| n IH]; intros self acc; simpl; [lia |].
  destruct (done self); simpl; [lia |].
  unfold step_frame.
  destruct (env_step (env self) code)
    as [exc | [[[[e' next_state] reward] terminated] truncated]]; simpl;
    [lia |].
  match goal with
  | |- context [burst n code ?l ?a] => specialize (IH l a)
  end.
  simpl in IH. lia.
Qed.

Lemma execute_maneuver_steps_bound self (a : PyVal) (d : Z) :
  steps self <= steps (execute_maneuver self a d).1
             <= steps self + Z.max 0 d.
Proof.
  unfold execute_maneuver.
  pose proof (burst_steps_bound (Z.to_nat d) (action_code a) self r_zero)
    as Hb.
  destruct (burst (Z.to_nat d) (action_code a) self r_zero) as [self' r].
  simpl in *. lia.
Qed.

End LanderFacts.

(** C10: whenever the executor returns, the duration in its result is the
    duration requested; a burst of five frames that the process ends on its
    second frame still records five. *)
Theorem C10_duration_as_requested :
  (forall (E R : Type) (HN : Number R) (HG : Gym E R)
          (self : LunarLanderInterface E R) (a : PyVal) (d : Z),
      match (execute_maneuver self a d).2 with
      | Ret result => result_duration result = d
      | Raise _ => True
      end)
  /\ (exists self' result,
        execute_maneuver (new_lander early_stop) (VStr "MAIN_ENGINE") 5
          = (self', Ret result)
        /\ steps self' - steps (new_lander early_stop) = 2
        /\ result_done result = true
        /\ result_duration result = 5).
Proof.
  split.
  - intros E R HN HG self a d.
    pose proof (execute_maneuver_records self a d) as Hrec.
    destruct (execute_maneuver self a d).2; tauto.
  - eexists _, _. split; [vm_compute; reflexivity |].
    repeat split.
Qed.

Lemma C3_burst_frames_witness :
  exists self' result,
    execute_maneuver (new_lander early_stop) (VStr "MAIN_ENGINE") 5
      = (self', Ret result)
    /\ steps self' = 2
    /\ result_done result = true
    /\ reward_accumulated result = 7.
Proof.
  destruct (C3_burst_frames (new_lander early_stop) (VStr "MAIN_ENGINE") 5)
    as (self' & result & Hrun & Hsteps & _ & _ & _ & _ & _ & Hdone & _
        & Hsum).
  - lia.
  - right. right. vm_compute.
    apply Exists_cons_tl, Exists_cons_hd. reflexivity.
  - exists self', result. split; [exact Hrun |].
    split; [exact Hsteps |]. split; [| exact Hsum].
    apply Hdone. vm_compute. reflexivity.
Defined.

(** ** The turn loop *)

Section MissionFacts.
Context {E R : Type} `{PyBuiltins} `{Number R} `{Gym E R}.
Implicit Types st : MissionState (E := E) (R := R).

(** What a turn that completes did, read off the record it logged. *)
Lemma turn_completed svc st st' :
  turn svc st = (st', Ret ()) ->
  exists rec,
    mission_log st' = (mission_log st ++ [rec])%list
    /\ step_count st' = step_count st + 1
    /\ step rec = step_count st'
    /\ telemetry rec = get_telemetry_description (lander st)
    /\ decide_maneuver
         (commander_run svc (step_count st')
            (commander_prompt (telemetry rec) (navigator_advice rec)))
       = Ret (commander_decision rec)
    /\ execute_maneuver (lander st) (action (commander_decision rec))
                        (duration (commander_decision rec))
       = (lander st', Ret (execution_result rec)).
Proof.
  unfold turn.
  destruct (navigator_run svc _ _) as [exc | nav_events]; [discriminate |].
  destruct (decide_maneuver _) as [exc | decision] eqn:Hdecide;
    [discriminate |].
  destruct (execute_maneuver _ _ _) as [lander' [exc | result]] eqn:Hexec;
    [discriminate |].
  intros Hturn. injection Hturn as <-. simpl.
  eexists. split; [reflexivity |]. simpl.
  repeat split; assumption.
Qed.

(** A turn that raises leaves the log as it was. *)
Lemma turn_raised svc st st' exc :
  turn svc st = (st', Raise exc) ->
  mission_log st' = mission_log st /\ step_count st' = step_count st + 1.
Proof.
  unfold turn.
  destruct (navigator_run svc _ _) as [e1 | nav_events].
  { intros Hturn. injection Hturn as <- _. auto. }
  destruct (decide_maneuver _) as [e2 | decision].
  { intros Hturn. injection Hturn as <- _. auto. }
  destruct (execute_maneuver _ _ _) as [lander' [e3 | result]].
  { intros Hturn. injection Hturn as <- _. auto. }
  discriminate.
Qed.

(** The log through the loop: nothing logged is dropped or changed, and
    exactly the completed turns are added, numbered in order. *)
Lemma mission_loop_log fuel svc max_steps : forall st st' exc,
  mission_loop fuel svc max_steps st = (st', exc) ->
  let completed :=
    step_count st' - step_count st
    - match exc with Some _ => 1 | None => 0 end in
  0 <= completed
  /\ exists added,
       mission_log st' = (mission_log st ++ added)%list
       /\ step <$> added = seqZ (step_count st + 1) completed.
Proof.
  induction fuel as [| fuel IH]; intros st st' exc; simpl.
  - intros Hloop. injection Hloop as <- <-. simpl.
    split; [lia |]. exists []. rewrite app_nil_r.
    split; [reflexivity |]. rewrite seqZ_nil by lia. reflexivity.
  - destruct (negb (done (lander st)) && (step_count st <? max_steps)).
    + destruct (turn svc st) as [st1 [e | []]] eqn:Hturn.
      * apply turn_raised in Hturn as [Hlog Hcount].
        intros Hloop. injection Hloop as <- <-. simpl.
        split; [lia |]. exists []. rewrite app_nil_r.
        split; [exact Hlog |]. rewrite seqZ_nil by lia. reflexivity.
      * apply turn_completed in Hturn
          as (rec & Hlog & Hcount & Hstep & _).
        intros Hloop. apply IH in Hloop as (Hpos & added & Hlog' & Hsteps).
        simpl in *. split; [lia |].
        exists (rec :: added). split.
        { rewrite Hlog', Hlog, <- app_assoc. reflexivity. }
        rewrite fmap_cons, Hsteps, Hstep, Hcount.
        rewrite (seqZ_cons (step_count st + 1)) by lia.
        f_equal. f_equal; lia.
    + intros Hloop. injection Hloop as <- <-. simpl.
      split; [lia |]. exists []. rewrite app_nil_r.
      split; [reflexivity |]. rewrite seqZ_nil by lia. reflexivity.
Qed.

(** With the fuel the programs give it, the loop ends because its
    condition fails or a turn raised, never because the fuel ran out. *)
Lemma mission_loop_exit fuel svc max_steps : forall st st',
  max_steps - step_count st <= Z.of_nat fuel ->
  mission_loop fuel svc max_steps st = (st', None) ->
  done (lander st') = true \/ max_steps <= step_count st'.
Proof.
  induction fuel as [| fuel IH]; intros st st' Hfuel; simpl.
  - intros Hloop. injection Hloop as <-. right. lia.
  - destruct (negb (done (lander st)) && (step_count st <? max_steps))
      eqn:Hcond.
    + destruct (turn svc st) as [st1 [e | []]] eqn:Hturn; [discriminate |].
      apply turn_completed in Hturn as (rec & _ & Hcount & _).
      apply IH. lia.
    + intros Hloop. injection Hloop as <-.
      apply andb_false_iff in Hcond as [Hdone | Hmax].
      * left. apply negb_false_iff, Hdone.
      * right. apply Z.ltb_ge, Hmax.
Qed.

(** The loop never takes a turn beyond the step budget. *)
Lemma mission_loop_budget fuel svc max_steps : forall st st' exc,
  step_count st <= max_steps ->
  mission_loop fuel svc max_steps st = (st', exc) ->
  step_count st' <= max_steps.
Proof.
  induction fuel as [| fuel IH]; intros st st' exc Hle; simpl.
  - intros Hloop. injection Hloop as <- _. exact Hle.
  - destruct (negb (done (lander st)) && (step_count st <? max_steps))
      eqn:Hcond.
    + apply andb_true_iff in Hcond as [_ Hlt]. apply Z.ltb_lt in Hlt.
      destruct (turn svc st) as [st1 [e | []]] eqn:Hturn.
      * apply turn_raised in Hturn as [_ Hcount].
        intros Hloop. injection Hloop as <- _. lia.
      * apply turn_completed in Hturn as (rec & _ & Hcount & _).
        apply IH. lia.
    + intros Hloop. injection Hloop as <- _. exact Hle.
Qed.

(** C1, as the code has it: the decision a completed turn executes is the
    one the invoker extracted from the commander's reply, handed to the
    executor as it is, with no validation in between; the executor runs an
    action outside the vocabulary as the no-op code 0 and runs at most
    [max 0 duration] frames. *)
Theorem C1_executes_what_was_extracted svc st st' :
  turn svc st = (st', Ret ()) ->
  exists rec,
    mission_log st' = (mission_log st ++ [rec])%list
    /\ decide_maneuver
         (commander_run svc (step_count st + 1)
            (commander_prompt (telemetry rec) (navigator_advice rec)))
       = Ret (commander_decision rec)
    /\ execute_maneuver (lander st) (action (commander_decision rec))
                        (duration (commander_decision rec))
       = (lander st', Ret (execution_result rec))
    /\ action_executed (execution_result rec)
       = action (commander_decision rec)
    /\ result_duration (execution_result rec)
       = duration (commander_decision rec)
    /\ ((forall a, action (commander_decision rec) = VStr a ->
                   ~ in_vocabulary a) ->
        action_code (action (commander_decision rec)) = 0)
    /\ steps (lander st) <= steps (lander st')
         <= steps (lander st) + Z.max 0 (duration (commander_decision rec)).
Proof.
  intros Hturn.
  apply turn_completed in Hturn
    as (rec & Hlog & Hcount & _ & _ & Hdecide & Hexec).
  exists rec. rewrite Hcount in Hdecide.
  pose proof (execute_maneuver_records (lander st)
                (action (commander_decision rec))
                (duration (commander_decision rec))) as Hrec.
  pose proof (execute_maneuver_steps_bound (lander st)
                (action (commander_decision rec))
                (duration (commander_decision rec))) as Hbound.
  rewrite Hexec in Hrec, Hbound. simpl in Hrec, Hbound.
  destruct Hrec as [Hdur Hact].
  repeat (split; [assumption |]).
  split; [apply action_code_outside | exact Hbound].
Qed.

(** C6: the status of a mission that ends without a fault is decided by
    the lander's accumulated reward alone: SUCCESS exactly at 200 or more,
    CRASH exactly at -100 or less, INCOMPLETE exactly in between; the loop
    has then ended on a terminal state or on the step budget; and an
    evaluation episode is a success exactly at 200 or more. *)
Theorem C6_outcome_classification :
  (forall r : R, r_le r (-100) = true -> r_ge r 200 = false) ->
  (forall total : R,
      (result_status total = "SUCCESS" <-> r_ge total 200 = true)
      /\ (result_status total = "CRASH" <-> r_le total (-100) = true)
      /\ (result_status total = "INCOMPLETE"
          <-> r_ge total 200 = false /\ r_le total (-100) = false))
  /\ (forall (key : string) svc (e : E) st,
        key <> "" ->
        mission_loop 100 svc 100 (start (new_lander e)) = (st, None) ->
        (exists result,
            (main_mission (Some key) svc e).1 = Ret result
            /\ status result = result_status (total_reward (lander st)))
        /\ (done (lander st) = true \/ step_count st = 100))
  /\ (forall (id : Z) svc (e : E) result,
        (run_episode id svc e).1 = Ret result ->
        success result = true <-> r_ge (er_total_reward result) 200 = true).
Proof.
  intros Horder. split; [| split].
  - intros total. unfold result_status.
    specialize (Horder total).
    destruct (r_ge total 200) eqn:Hge.
    + destruct (r_le total (-100)); [specialize (Horder eq_refl) |];
        intuition congruence.
    + destruct (r_le total (-100)); intuition congruence.
  - intros key svc e st Hkey Hloop. split.
    + unfold main_mission.
      destruct key as [| c key]; [congruence |].
      change (Z.to_nat 100) with 100%nat. rewrite Hloop. simpl.
      eexists. split; reflexivity.
    + pose proof Hloop as Hexit.
      apply mission_loop_exit in Hexit; [| simpl; lia].
      apply mission_loop_budget in Hloop; [| simpl; lia].
      destruct Hexit as [Hdone | Hmax]; [left; exact Hdone | right; lia].
  - intros id svc e result. unfold run_episode.
    destruct (mission_loop _ _ _ _) as [st [exc |]]; simpl.
    + destruct (is_Exception exc); simpl; [| discriminate].
      intros Hret. injection Hret as <-. simpl. reflexivity.
    + intros Hret. injection Hret as <-. simpl. reflexivity.
Qed.


Lemma result_status_not_aborted (total : R) :
  result_status total <> "ABORTED".
Proof.
  unfold result_status.
  destruct (r_ge total 200); [discriminate |].
  destruct (r_le total (-100)); discriminate.
Qed.

Lemma mission_loop_from_start fuel svc max_steps (e : E) st exc :
  mission_loop fuel svc max_steps (start (new_lander e)) = (st, exc) ->
  step <$> mission_log st =
    seqZ 1 (step_count st - match exc with Some _ => 1 | None => 0 end).
Proof.
  intros Hloop.
  apply mission_loop_log in Hloop as (_ & added & Hlog & Hsteps).
  simpl in *. subst added. rewrite Hsteps. f_equal. lia.
Qed.

(** C7, as the code has it.  In the mission program every exit of the loop
    -- normal end, interrupt or fault -- writes the mission log, which
    holds the records of exactly the turns completed before, in order, and
    closes the process last; an interrupt returns the status ABORTED, any
    other fault leaves [main] as the exception it is.  In the evaluation
    program every exit closes the process and writes no log; an interrupt
    leaves [run_episode] as an exception, any other fault is swallowed and
    the episode returns its ordinary result with the records of the turns
    completed before. *)
Theorem C7_cleanup_on_every_exit (key : string) (id : Z) svc (e : E) :
  key <> "" ->
  (exists st exc,
      mission_loop 100 svc 100 (start (new_lander e)) = (st, exc)
      /\ step <$> mission_log st =
           seqZ 1 (step_count st
                   - match exc with Some _ => 1 | None => 0 end)
      /\ (main_mission (Some key) svc e).2 =
           ([WriteLog "mission_log.json" (mission_log st)]
            ++ save_video (lander st) "mission_replay.mp4"
            ++ [CloseEnv])%list
      /\ match exc with
         | None =>
             exists result,
               (main_mission (Some key) svc e).1 = Ret result
               /\ status result <> "ABORTED"
               /\ mr_log result = Some (mission_log st)
         | Some KeyboardInterrupt =>
             exists result,
               (main_mission (Some key) svc e).1 = Ret result
               /\ status result = "ABORTED"
         | Some fault => (main_mission (Some key) svc e).1 = Raise fault
         end)
  /\ (exists st exc,
        mission_loop 80 svc 80 (start (new_lander e)) = (st, exc)
        /\ step <$> mission_log st =
             seqZ 1 (step_count st
                     - match exc with Some _ => 1 | None => 0 end)
        /\ (run_episode id svc e).2 = [CloseEnv]
        /\ match exc with
           | Some KeyboardInterrupt =>
               (run_episode id svc e).1 = Raise KeyboardInterrupt
           | _ =>
               exists result,
                 (run_episode id svc e).1 = Ret result
                 /\ er_log result = mission_log st
                 /\ er_steps result = step_count st
                 /\ success result = r_ge (episode_reward st) 200
           end).
Proof.
  intros Hkey. split.
  - destruct (mission_loop 100 svc 100 (start (new_lander e)))
      as [st exc] eqn:Hloop.
    exists st, exc. split; [reflexivity |].
    split; [apply (mission_loop_from_start _ _ _ _ _ _ Hloop) |].
    unfold main_mission.
    destruct key as [| c key]; [congruence |].
    change (Z.to_nat 100) with 100%nat. rewrite Hloop.
    destruct exc as [[] |]; simpl; split; try reflexivity.
    + eexists. split; reflexivity.
    + eexists. split; [reflexivity |]. simpl.
      split; [apply result_status_not_aborted | reflexivity].
  - destruct (mission_loop 80 svc 80 (start (new_lander e)))
      as [st exc] eqn:Hloop.
    exists st, exc. split; [reflexivity |].
    split; [apply (mission_loop_from_start _ _ _ _ _ _ Hloop) |].
    unfold run_episode.
    change (Z.to_nat 80) with 80%nat. rewrite Hloop.
    destruct exc as [[] |]; simpl; split; try reflexivity.
    all: eexists; split; [reflexivity |]; simpl; auto.
Qed.

End MissionFacts.

Lemma C1_executes_what_was_extracted_witness :
  exists rec,
    mission_log (turn warp_service (start (new_lander fifty_frames))).1
      = [rec]
    /\ action_code (action (commander_decision rec)) = 0
    /\ result_duration (execution_result rec) = 50.
Proof.
  destruct (C1_executes_what_was_extracted warp_service
              (start (new_lander fifty_frames))
              (turn warp_service (start (new_lander fifty_frames))).1)
    as (rec & Hlog & Hdecide & _ & _ & Hdur & _ & _).
  - vm_compute. reflexivity.
  - exists rec. split; [exact Hlog |].
    assert (Ret (commander_decision rec)
            = Ret {| action := VStr "WARP"; duration := 50;
                     reasoning := VStr "go" |}) as Heq
      by (rewrite <- Hdecide; vm_compute; reflexivity).
    injection Heq as Heq. rewrite Hdur, Heq.
    split; vm_compute; reflexivity.
Defined.

(** C1 as the specification words it fails: a tool call asking for WARP
    during 50 frames, which the validator rejects, is executed as asked: the
    mission runs 50 frames on it and logs it. *)
Lemma C1_counterexample :
  exists result effects rec,
    main_mission (Some "key") warp_service fifty_frames
      = (Ret result, effects)
    /\ mr_log result = Some [rec]
    /\ ~ valid_decision (commander_decision rec)
    /\ action (commander_decision rec) = VStr "WARP"
    /\ duration (commander_decision rec) = 50
    /\ action_executed (execution_result rec) = VStr "WARP"
    /\ result_duration (execution_result rec) = 50
    /\ steps_taken (final_telemetry (execution_result rec)) = 50
    /\ (exists msg, agents.execute_maneuver "WARP" 50 "go" = ToolError msg).
Proof.
  remember (main_mission (Some "key") warp_service fifty_frames) as run
    eqn:Hrun.
  vm_compute in Hrun. subst run.
  eexists _, _, _. split; [reflexivity |]. simpl.
  split; [reflexivity |].
  split; [unfold valid_decision; simpl; lia |].
  repeat (split; [reflexivity |]).
  eexists. vm_compute. reflexivity.
Qed.

Lemma C6_outcome_classification_witness :
  result_status 250 = "SUCCESS"
  /\ result_status (-150) = "CRASH"
  /\ result_status 40 = "INCOMPLETE".
Proof.
  assert (forall r : Z, r_le r (-100) = true -> r_ge r 200 = false)
    as Horder.
  { intros r. simpl. intros Hle. apply Z.leb_le in Hle.
    apply Z.leb_gt. lia. }
  destruct (C6_outcome_classification (E := list (Z * bool)) Horder)
    as (Hclass & _ & _).
  split; [| split].
  - apply (Hclass 250). reflexivity.
  - apply (Hclass (-150)). reflexivity.
  - apply (Hclass 40). split; reflexivity.
Defined.

Lemma C7_cleanup_on_every_exit_witness :
  (main_mission (Some "key") failing_service fifty_frames).1
    = Raise (ServiceError "503")
  /\ (exists result,
        (run_episode 1 failing_service fifty_frames).1 = Ret result
        /\ length (er_log result) = 1%nat).
Proof.
  assert ("key" <> "") as Hkey by discriminate.
  destruct (C7_cleanup_on_every_exit "key" 1 failing_service fifty_frames
              Hkey)
    as ((st & exc & Hloop & _ & _ & Hmain)
        & (st2 & exc2 & Hloop2 & _ & _ & Hrun)).
  vm_compute in Hloop. injection Hloop as <- <-.
  vm_compute in Hloop2. injection Hloop2 as <- <-.
  split; [exact Hmain |].
  destruct Hrun as (result & Hret & Hlog & _).
  exists result. split; [exact Hret |]. rewrite Hlog. reflexivity.
Defined.

(** C7 as the specification words it fails: with a service fault in the
    second turn, the mission program ends in that exception, not in a
    result with the status ABORTED, and the evaluation program returns a
    result like any other and writes no log. *)
Lemma C7_counterexample :
  (exists effects,
      main_mission (Some "key") failing_service fifty_frames
        = (Raise (ServiceError "503"), effects))
  /\ (exists rec,
        run_episode 1 failing_service fifty_frames
          = (Ret {| episode_id := 1; er_total_reward := 1; er_steps := 2;
                    success := false; er_log := [rec] |},
             [CloseEnv])).
Proof.
  split.
  - remember (main_mission (Some "key") failing_service fifty_frames)
      as run eqn:Hrun.
    vm_compute in Hrun. subst run. eexists. reflexivity.
  - remember (run_episode 1 failing_service fifty_frames) as run eqn:Hrun.
    vm_compute in Hrun. subst run. eexists. reflexivity.
Qed.

(** ** The compaction configuration *)

Lemma length_append (s t : string) :
  String.length (s +:+ t) = (String.length s + String.length t)%nat.
Proof. induction s as [| c s IH]; simpl; [reflexivity | rewrite IH; lia]. Qed.

(** C9, as the code has it: in both programs the two roles converse in
    different sessions, and the compaction policy (interval 10, overlap 2)
    is configured for the navigator's runner only; the commander's runner
    is built without an application and has no compaction. *)
Theorem C9_compaction_for_navigator_only (name session_id : string) :
  runner_compaction (runner_of name Navigator)
    = Some {| compaction_interval := 10; overlap_size := 2 |}
  /\ runner_compaction (runner_of name Commander) = None
  /\ session_id_of session_id Navigator
       <> session_id_of session_id Commander.
Proof.
  split; [reflexivity |]. split; [reflexivity |].
  simpl. intros Heq. apply (f_equal String.length) in Heq.
  rewrite length_append in Heq. simpl in Heq. lia.
Qed.

(** C9 as the specification words it fails: not every role's session is
    under the compaction policy, the commander's is not. *)
Lemma C9_counterexample :
  ~ (forall role,
        runner_compaction (runner_of "lunar_landing_mission" role)
          = Some {| compaction_interval := 10; overlap_size := 2 |}).
Proof. intros Hall. specialize (Hall Commander). discriminate. Qed.

(** * Further properties of the code *)

(** ** The vocabulary, the action table and the invoker *)

(** The validator's vocabulary is exactly the key set of the executor's
    table; inside the vocabulary only HOLD has the no-op code 0, and every
    name outside it runs with the code of HOLD. *)
Theorem vocabulary_is_action_table (a : string) :
  (in_vocabulary a <-> is_Some (action_map !! a))
  /\ (in_vocabulary a -> (action_code (VStr a) = 0 <-> a = "HOLD"))
  /\ (~ in_vocabulary a -> action_code (VStr a) = action_code (VStr "HOLD")).
Proof.
  unfold in_vocabulary. simpl. rewrite !action_map_lookup.
  split; [| split].
  - repeat case_decide; subst; split; intros Hin; eauto 6.
    + exfalso. intuition congruence.
    + destruct Hin as [x Hx]. discriminate.
  - intros Hvoc. repeat case_decide; subst; simpl; split; intros Heq;
      try congruence.
    exfalso. intuition congruence.
  - intros Hout. repeat case_decide; subst; simpl;
      try reflexivity; exfalso; tauto.
Qed.

Section InvokerMore.
Context `{PyBuiltins}.

(** A function call that keeps to the tool's contract gives a decision the
    validator accepts: an action that is absent (it becomes HOLD) or a name
    of the vocabulary, a duration that is absent (it becomes 1) or an
    integer from 1 to 10; an absent reasoning becomes "No reasoning
    provided". *)
Theorem decision_of_call_within_contract (fn : FunctionCall)
    (args : gmap string PyVal) :
  fc_args fn = Some args ->
  (args !! "action" = None
   \/ exists a, args !! "action" = Some (VStr a) /\ in_vocabulary a) ->
  (args !! "duration" = None
   \/ exists z, args !! "duration" = Some (VInt z) /\ 1 <= z <= 10) ->
  exists d a,
    decision_of_call fn = Ret d
    /\ action d = VStr a
    /\ valid_decision d
    /\ (forall why,
          agents.execute_maneuver a (duration d) why
            = ToolSuccess a (duration d) why)
    /\ (args !! "action" = None -> a = "HOLD")
    /\ (args !! "duration" = None -> duration d = 1)
    /\ (args !! "reasoning" = None ->
        reasoning d = VStr "No reasoning provided").
Proof.
  intros Hargs Hact Hdur. unfold decision_of_call. rewrite Hargs.
  assert (exists a, default (VStr "HOLD") (args !! "action") = VStr a
                    /\ in_vocabulary a
                    /\ (args !! "action" = None -> a = "HOLD"))
    as (a & Ha & Hvoc & Hadef).
  { destruct Hact as [-> | (a & -> & Hvoc)]; simpl.
    - exists "HOLD". unfold in_vocabulary. auto 6.
    - exists a. split; [reflexivity |]. split; [exact Hvoc | discriminate]. }
  assert (exists z, default (VInt 1) (args !! "duration") = VInt z
                    /\ 1 <= z <= 10
                    /\ (args !! "duration" = None -> z = 1))
    as (z & Hz & Hbound & Hzdef).
  { destruct Hdur as [-> | (z & -> & Hbound)]; simpl.
    - exists 1. split; [reflexivity |]. split; [lia | reflexivity].
    - exists z. split; [reflexivity |]. split; [lia | discriminate]. }
  rewrite Ha, Hz. simpl.
  eexists _, a. split; [reflexivity |]. simpl.
  split; [reflexivity |].
  split; [split; [exists a; auto | exact Hbound] |].
  split.
  { intros why. unfold agents.execute_maneuver.
    rewrite bool_decide_eq_true_2 by (apply elem_of_valid_actions, Hvoc).
    simpl.
    rewrite (proj2 (bounds_reflect z) Hbound). reflexivity. }
  split; [exact Hadef |]. split; [exact Hzdef |].
  intros ->. reflexivity.
Qed.

End InvokerMore.

(** The advice handed to the commander is the text of the last final
    response of the navigator that has parts (the text of its first part);
    without one it stays what it was, the empty string in the programs. *)
Theorem read_advice_last_final (events : list Event)
    (advice : option string) :
  read_advice events advice = default advice (last (final_texts events)).
Proof.
  revert advice.
  induction events as [| event rest IH]; intros advice; [reflexivity |].
  simpl read_advice. rewrite IH.
  change (final_texts (event :: rest))
    with (match (if is_final_response event then
                   match event_parts event with
                   | part :: _ => Some (text part)
                   | [] => None
                   end
                 else None) with
          | Some t => t :: final_texts rest
          | None => final_texts rest
          end).
  destruct (is_final_response event); [| reflexivity].
  destruct (event_parts event) as [| part ps]; [reflexivity |].
  destruct (final_texts rest) as [| t ts] eqn:Hrest; [reflexivity |].
  rewrite (last_cons (text part)).
  destruct (last (t :: ts)) eqn:Hlast; [reflexivity |].
  apply last_None in Hlast. discriminate.
Qed.

(** ** The lander *)

Section LanderMore.
Context {E R : Type} `{Number R} `{Gym E R}.
Implicit Types self : LunarLanderInterface E R.

(** On a lander that is already done, or with a duration of zero or less,
    the executor does not touch the process: the lander is unchanged and
    the result reports a reward of zero, the lander's own [done] flag, and
    the action and duration as requested. *)
Theorem execute_maneuver_noop self (a : PyVal) (d : Z) :
  done self = true \/ d <= 0 ->
  execute_maneuver self a d =
    (self, Ret {| final_telemetry := get_telemetry self;
                  reward_accumulated := r_zero;
                  result_done := done self;
                  action_executed := a;
                  result_duration := d |}).
Proof.
  intros Hcase. unfold execute_maneuver.
  destruct Hcase as [Hdone | Hd].
  - rewrite burst_done by exact Hdone. reflexivity.
  - replace (Z.to_nat d) with 0%nat by lia. reflexivity.
Qed.

Lemma burst_fault n code : forall self acc,
  done self = false ->
  let tr := env_trace n (env self) code in
  (length tr < n)%nat ->
  Forall (fun f => f.2 = false) tr ->
  exists self' exc,
    burst n code self acc = (self', Raise exc)
    /\ env_step (env self') code = Raise exc
    /\ steps self' = steps self + Z.of_nat (length tr)
    /\ total_reward self' = foldl r_add (total_reward self) tr.*1
    /\ done self' = false.
Proof.
  induction n as [| n IH]; intros self acc Hdone; simpl.
  - intros Hlt. lia.
  - rewrite Hdone. unfold step_frame.
    destruct (env_step (env self) code)
      as [exc | [[[[e' next_state] reward] terminated] truncated]] eqn:Hstep;
      simpl.
    + intros _ _. exists self, exc. rewrite Hstep.
      repeat split; try reflexivity; try assumption. lia.
    + intros Hlt Hquiet. inversion Hquiet as [| ? ? Hflag Hrest]; subst.
      simpl in Hflag. rewrite Hflag.
      match goal with
      | |- context [burst n code ?l ?a] =>
          destruct (IH l a eq_refl) as (self' & exc & Hb & Hs & Hst & Ht & Hd)
      end; simpl; [lia | exact Hrest |].
      exists self', exc. simpl in Hst, Ht.
      repeat split; try assumption. lia.
Qed.

(** When the process raises in the middle of a burst -- before [d] frames
    and before any terminal frame -- the executor raises that exception and
    returns no result, but the lander keeps what the frames before did:
    its step counter and its total reward have advanced by them. *)
Theorem execute_maneuver_fault self (a : PyVal) (d : Z) :
  done self = false ->
  let tr := env_trace (Z.to_nat d) (env self) (action_code a) in
  (length tr < Z.to_nat d)%nat ->
  Forall (fun f => f.2 = false) tr ->
  exists self' exc,
    execute_maneuver self a d = (self', Raise exc)
    /\ env_step (env self') (action_code a) = Raise exc
    /\ steps self' = steps self + Z.of_nat (length tr)
    /\ total_reward self' = foldl r_add (total_reward self) tr.*1
    /\ done self' = false.
Proof.
  intros Hdone tr Hlt Hquiet.
  destruct (burst_fault (Z.to_nat d) (action_code a) self r_zero
              Hdone Hlt Hquiet)
    as (self' & exc & Hb & Hrest).
  exists self', exc. unfold execute_maneuver. rewrite Hb.
  split; [reflexivity | exact Hrest].
Qed.

Lemma burst_frames n code : forall self acc,
  let self' := (burst n code self acc).1 in
  frames self `prefix_of` frames self'
  /\ Z.of_nat (length (frames self')) - Z.of_nat (length (frames self))
       <= steps self' - steps self
  /\ ((forall e : E, is_Some (env_render e)) ->
      Z.of_nat (length (frames self')) - Z.of_nat (length (frames self))
        = steps self' - steps self).
Proof.
  induction n as [| n IH]; intros self acc; simpl.
  - split; [reflexivity |]. split; [lia |]. intros _. lia.
  - destruct (done self); simpl.
    { split; [reflexivity |]. split; [lia |]. intros _. lia. }
    unfold step_frame.
    destruct (env_step (env self) code)
      as [exc | [[[[e' next_state] reward] terminated] truncated]]; simpl.
    { split; [reflexivity |]. split; [lia |]. intros _. lia. }
    match goal with
    | |- context [burst n code ?l ?a] =>
        destruct (IH l a) as (Hpre & Hle & Heq)
    end.
    simpl in Hpre, Hle, Heq.
    destruct (env_render e') as [frame |] eqn:Hrender.
    + rewrite length_app in Hle, Heq. simpl in Hle, Heq.
      split; [etrans; [apply prefix_app_r; reflexivity | exact Hpre] |].
      split; [lia |]. intros Hall. specialize (Heq Hall). lia.
    + split; [exact Hpre |]. split; [lia |].
      intros Hall. destruct (Hall e') as [f Hf]. congruence.
Qed.

(** The executor only appends to the recorded frames, at most one frame
    for each step it takes, and exactly one when the process always
    renders; the step counter never goes back. *)
Theorem execute_maneuver_frames self (a : PyVal) (d : Z) :
  let self' := (execute_maneuver self a d).1 in
  frames self `prefix_of` frames self'
  /\ steps self <= steps self'
  /\ Z.of_nat (length (frames self')) - Z.of_nat (length (frames self))
       <= steps self' - steps self
  /\ ((forall e : E, is_Some (env_render e)) ->
      Z.of_nat (length (frames self')) - Z.of_nat (length (frames self))
        = steps self' - steps self).
Proof.
  pose proof (burst_frames (Z.to_nat d) (action_code a) self r_zero) as Hb.
  pose proof (burst_steps_bound (Z.to_nat d) (action_code a) self r_zero)
    as Hs.
  unfold execute_maneuver.
  destruct (burst (Z.to_nat d) (action_code a) self r_zero) as [self' r].
  simpl in *. destruct Hb as (Hpre & Hle & Heq).
  split; [exact Hpre |]. split; [lia |]. split; [exact Hle | exact Heq].
Qed.

Section Laws.
Hypothesis r_add_assoc :
  forall x y z : R, r_add x (r_add y z) = r_add (r_add x y) z.
Hypothesis r_add_zero_l : forall x : R, r_add r_zero x = x.
Hypothesis r_add_zero_r : forall x : R, r_add x r_zero = x.

Lemma burst_total n code : forall self acc self' acc',
  burst n code self acc = (self', Ret acc') ->
  exists s,
    acc' = r_add acc s /\ total_reward self' = r_add (total_reward self) s.
Proof.
  induction n as [| n IH]; intros self acc self' acc'; simpl.
  - intros [= <- <-]. exists r_zero. rewrite !r_add_zero_r. auto.
  - destruct (done self).
    { intros [= <- <-]. exists r_zero. rewrite !r_add_zero_r. auto. }
    unfold step_frame.
    destruct (env_step (env self) code)
      as [exc | [[[[e' next_state] reward] terminated] truncated]]; simpl;
      [discriminate |].
    intros Hb. apply IH in Hb as (s & Hacc & Htot). simpl in Htot.
    exists (r_add reward s). rewrite !r_add_assoc. auto.
Qed.

(** With an addition that is associative and has zero as its unit, a burst
    that returns has raised the lander's total reward by exactly the reward
    it reports. *)
Theorem execute_maneuver_total_reward self (a : PyVal) (d : Z) self' result :
  execute_maneuver self a d = (self', Ret result) ->
  total_reward self' = r_add (total_reward self) (reward_accumulated result).
Proof.
  unfold execute_maneuver.
  destruct (burst (Z.to_nat d) (action_code a) self r_zero)
    as [self1 [exc | acc]] eqn:Hb; simpl; [discriminate |].
  intros [= <- <-]. simpl.
  apply burst_total in Hb as (s & -> & ->).
  rewrite r_add_zero_l. reflexivity.
Qed.

End Laws.

End LanderMore.

Section ResetMore.
Context {E R : Type} `{Number R} `{Gym E R}.
Implicit Types self : LunarLanderInterface E R.

Lemma burst_first_frame n code self acc out :
  done self = false ->
  env_step (env self) code = Ret out ->
  steps self + 1 <= steps (burst (S n) code self acc).1.
Proof.
  intros Hdone Hstep. simpl. rewrite Hdone. unfold step_frame.
  rewrite Hstep. simpl.
  destruct out as [[[[e' next_state] reward] terminated] truncated].
  match goal with
  | |- context [burst n code ?l ?a] =>
      pose proof (burst_steps_bound n code l a) as Hb
  end.
  simpl in Hb. lia.
Qed.

(** [reset] brings any lander, done or not, to the state of a new one over
    its environment: counters at zero, no frames, not done; so a following
    burst of at least one frame steps the process again, provided the first
    step does not raise. *)
Theorem reset_then_burst self (a : PyVal) (d : Z) out :
  1 <= d ->
  env_step (env (reset self).1) (action_code a) = Ret out ->
  (reset self).1 = new_lander (env self)
  /\ steps_taken (reset self).2 = 0
  /\ done (reset self).1 = false
  /\ 1 <= steps (execute_maneuver (reset self).1 a d).1.
Proof.
  intros Hd Hstep.
  assert ((reset self).1 = new_lander (env self)) as Hnew.
  { unfold reset, new_lander. destruct (env_reset (env self)); reflexivity. }
  assert (steps (reset self).1 = 0 /\ done (reset self).1 = false)
    as [Hsteps Hdone].
  { unfold reset. destruct (env_reset (env self)); simpl. auto. }
  split; [exact Hnew |]. split.
  { unfold reset. destruct (env_reset (env self)); reflexivity. }
  split; [exact Hdone |].
  unfold execute_maneuver.
  destruct (Z.to_nat d) as [| n] eqn:Hn; [lia |].
  pose proof (burst_first_frame n (action_code a) (reset self).1 r_zero out
                Hdone Hstep) as Hb.
  destruct (burst (S n) (action_code a) (reset self).1 r_zero)
    as [self' r]. simpl in *. lia.
Qed.

End ResetMore.

(** ** The turn loop *)

Section MissionMore.
Context {E R : Type} `{PyBuiltins} `{Number R} `{Gym E R}.
Implicit Types st : MissionState (E := E) (R := R).

Lemma turn_completed_reward svc st st' :
  turn svc st = (st', Ret ()) ->
  exists rec result,
    mission_log st' = (mission_log st ++ [rec])%list
    /\ execution_result rec = result
    /\ episode_reward st'
       = r_add (episode_reward st) (reward_accumulated result)
    /\ execute_maneuver (lander st) (action (commander_decision rec))
                        (duration (commander_decision rec))
       = (lander st', Ret result).
Proof.
  unfold turn.
  destruct (navigator_run svc _ _) as [exc | nav_events]; [discriminate |].
  destruct (decide_maneuver _) as [exc | decision]; [discriminate |].
  destruct (execute_maneuver _ _ _) as [lander' [exc | result]] eqn:Hexec;
    [discriminate |].
  intros Hturn. injection Hturn as <-. simpl.
  eexists _, result. simpl. repeat split. exact Hexec.
Qed.

Lemma turn_raised_reward svc st st' exc :
  turn svc st = (st', Raise exc) -> episode_reward st' = episode_reward st.
Proof.
  unfold turn.
  destruct (navigator_run svc _ _) as [e1 | nav_events].
  { intros Hturn. injection Hturn as <- _. reflexivity. }
  destruct (decide_maneuver _) as [e2 | decision].
  { intros Hturn. injection Hturn as <- _. reflexivity. }
  destruct (execute_maneuver _ _ _) as [lander' [e3 | result]].
  { intros Hturn. injection Hturn as <- _. reflexivity. }
  discriminate.
Qed.

Lemma mission_loop_reward fuel svc max_steps : forall st st' exc,
  mission_loop fuel svc max_steps st = (st', exc) ->
  exists added,
    mission_log st' = (mission_log st ++ added)%list
    /\ episode_reward st'
       = foldl r_add (episode_reward st) (log_rewards added).
Proof.
  induction fuel as [| fuel IH]; intros st st' exc; simpl.
  - intros [= <- <-]. exists []. rewrite app_nil_r. auto.
  - destruct (negb (done (lander st)) && (step_count st <? max_steps)).
    + destruct (turn svc st) as [st1 [e | []]] eqn:Hturn.
      * intros [= <- <-]. exists []. rewrite app_nil_r.
        pose proof (turn_raised_reward _ _ _ _ Hturn) as Hrew.
        apply turn_raised in Hturn as [Hlog _]. auto.
      * apply turn_completed_reward in Hturn
          as (rec & result & Hlog & Hres & Hrew & _).
        intros Hloop. apply IH in Hloop as (added & Hlog' & Hrew').
        exists (rec :: added). split.
        { rewrite Hlog', Hlog, <- app_assoc. reflexivity. }
        rewrite Hrew', Hrew. simpl. rewrite Hres. reflexivity.
    + intros [= <- <-]. exists []. rewrite app_nil_r. auto.
Qed.

(** The total reward a program returns is the sum, from zero and in order,
    of the rewards of the records in the log it returns -- in the
    evaluation also when a fault cut the episode short. *)
Theorem total_reward_is_log_sum svc (e : E) :
  (forall key result log,
      (main_mission key svc e).1 = Ret result ->
      mr_log result = Some log ->
      mr_total_reward result = Some (foldl r_add r_zero (log_rewards log)))
  /\ (forall id result,
        (run_episode id svc e).1 = Ret result ->
        er_total_reward result
          = foldl r_add r_zero (log_rewards (er_log result))).
Proof.
  split.
  - intros key result log. unfold main_mission.
    destruct key as [[| c key] |];
      try (simpl; intros [= <-]; discriminate).
    change (Z.to_nat 100) with 100%nat.
    destruct (mission_loop 100 svc 100 (start (new_lander e)))
      as [st exc] eqn:Hloop.
    apply mission_loop_reward in Hloop as (added & Hlog & Hrew).
    simpl in Hlog, Hrew. subst added.
    destruct exc as [[] |]; simpl; try discriminate.
    + intros [= <-]. discriminate.
    + intros [= <-]. simpl. intros [= <-]. rewrite Hrew. reflexivity.
  - intros id result. unfold run_episode.
    change (Z.to_nat 80) with 80%nat.
    destruct (mission_loop 80 svc 80 (start (new_lander e)))
      as [st exc] eqn:Hloop.
    apply mission_loop_reward in Hloop as (added & Hlog & Hrew).
    simpl in Hlog, Hrew. subst added.
    destruct exc as [exc |]; simpl.
    + destruct (is_Exception exc); simpl; [| discriminate].
      intros [= <-]. exact Hrew.
    + intros [= <-]. exact Hrew.
Qed.

Lemma mission_loop_count fuel svc max_steps (e : E) st exc :
  0 <= max_steps ->
  mission_loop fuel svc max_steps (start (new_lander e)) = (st, exc) ->
  0 <= step_count st <= max_steps
  /\ Z.of_nat (length (mission_log st))
     = step_count st - match exc with Some _ => 1 | None => 0 end.
Proof.
  intros Hmax Hloop.
  assert (step_count (start (new_lander e)) <= max_steps) as Hstart
    by (simpl; lia).
  pose proof (mission_loop_budget _ _ _ _ _ _ Hstart Hloop) as Hle.
  apply mission_loop_log in Hloop as (Hpos & added & Hlog & Hsteps).
  simpl in *. subst added.
  assert (length (mission_log st)
          = Z.to_nat (step_count st - 0
                      - match exc with Some _ => 1 | None => 0 end))
    as Hlen by (rewrite <- (length_fmap step), Hsteps; apply length_seqZ).
  destruct exc; lia.
Qed.

(** The step budgets hold: the mission program takes at most 100 turns and
    the evaluation at most 80; a log returned holds one record for each
    turn counted, except that the turn a swallowed fault interrupted is
    counted and has no record. *)
Theorem turns_within_budget svc (e : E) :
  (forall key result n,
      (main_mission key svc e).1 = Ret result ->
      mr_steps result = Some n ->
      0 <= n <= 100
      /\ (forall log, mr_log result = Some log ->
                      Z.of_nat (length log) = n))
  /\ (forall id result,
        (run_episode id svc e).1 = Ret result ->
        0 <= er_steps result <= 80
        /\ er_steps result - 1 <= Z.of_nat (length (er_log result))
             <= er_steps result).
Proof.
  split.
  - intros key result n. unfold main_mission.
    destruct key as [[| c key] |];
      try (simpl; intros [= <-]; discriminate).
    change (Z.to_nat 100) with 100%nat.
    destruct (mission_loop 100 svc 100 (start (new_lander e)))
      as [st exc] eqn:Hloop.
    apply mission_loop_count in Hloop as [Hb Hlen]; [| lia].
    destruct exc as [[] |]; simpl; try discriminate.
    + intros [= <-]. simpl. intros [= <-]. split; [lia | discriminate].
    + intros [= <-]. simpl. intros [= <-]. split; [lia |].
      intros log [= <-]. lia.
  - intros id result. unfold run_episode.
    change (Z.to_nat 80) with 80%nat.
    destruct (mission_loop 80 svc 80 (start (new_lander e)))
      as [st exc] eqn:Hloop.
    apply mission_loop_count in Hloop as [Hb Hlen]; [| lia].
    destruct exc as [exc |]; simpl.
    + destruct (is_Exception exc); simpl; [| discriminate].
      intros [= <-]. simpl. lia.
    + intros [= <-]. simpl. lia.
Qed.

(** A commander that times out does not stop the turn: with an answering
    navigator and a process whose next step does not raise, the turn
    completes, logs the default decision and runs exactly one frame of the
    no-op. *)
Theorem turn_on_timeout svc st nav_events out :
  done (lander st) = false ->
  navigator_run svc (step_count st + 1)
                (get_telemetry_description (lander st)) = Ret nav_events ->
  (forall prompt,
      commander_run svc (step_count st + 1) prompt = Raise TimeoutError) ->
  env_step (env (lander st)) 0 = Ret out ->
  exists st' rec,
    turn svc st = (st', Ret ())
    /\ mission_log st' = (mission_log st ++ [rec])%list
    /\ commander_decision rec = fallback_decision
    /\ steps (lander st') = steps (lander st) + 1
    /\ result_duration (execution_result rec) = 1.
Proof.
  intros Hdone Hnav Hcmd Hstep.
  assert (action_code (VStr "HOLD") = 0) as Hcode
    by (vm_compute; reflexivity).
  destruct out as [[[[e' next_state] reward] terminated] truncated].
  destruct (execute_maneuver (lander st) (VStr "HOLD") 1)
    as [lander' r] eqn:Hexec.
  assert (steps lander' = steps (lander st) + 1
          /\ exists result, r = Ret result /\ result_duration result = 1)
    as (Hsteps & result & -> & Hdur).
  { unfold execute_maneuver in Hexec. rewrite Hcode in Hexec.
    change (Z.to_nat 1) with 1%nat in Hexec. simpl in Hexec.
    rewrite Hdone in Hexec. unfold step_frame in Hexec.
    rewrite Hstep in Hexec. simpl in Hexec.
    injection Hexec as <- <-. simpl. eauto. }
  unfold turn. rewrite Hnav, Hcmd.
  change (decide_maneuver (Raise TimeoutError)) with (Ret fallback_decision).
  cbv iota beta.
  change (action fallback_decision) with (VStr "HOLD").
  change (duration fallback_decision) with 1.
  rewrite Hexec.
  eexists _, _. split; [reflexivity |]. simpl.
  repeat split; assumption.
Qed.

Section Laws.
Hypothesis r_add_assoc :
  forall x y z : R, r_add x (r_add y z) = r_add (r_add x y) z.
Hypothesis r_add_zero_l : forall x : R, r_add r_zero x = x.
Hypothesis r_add_zero_r : forall x : R, r_add x r_zero = x.

Lemma mission_loop_totals fuel svc max_steps : forall st st',
  mission_loop fuel svc max_steps st = (st', None) ->
  total_reward (lander st) = episode_reward st ->
  total_reward (lander st') = episode_reward st'.
Proof.
  induction fuel as [| fuel IH]; intros st st'; simpl.
  - intros [= <-]. auto.
  - destruct (negb (done (lander st)) && (step_count st <? max_steps)).
    + destruct (turn svc st) as [st1 [e | []]] eqn:Hturn; [discriminate |].
      apply turn_completed_reward in Hturn
        as (rec & result & _ & _ & Hrew & Hexec).
      intros Hloop Hinv. apply (IH _ _ Hloop).
      rewrite Hrew, <- Hinv. clear Hrew.
      unfold execute_maneuver in Hexec.
      destruct (burst _ _ (lander st) r_zero)
        as [self1 [exc | acc]] eqn:Hb; simpl in Hexec; [discriminate |].
      injection Hexec as <- <-. simpl.
      apply (burst_total r_add_assoc r_add_zero_r) in Hb as (s & -> & ->).
      rewrite r_add_zero_l. reflexivity.
    + intros [= <-]. auto.
Qed.

(** With an addition that is associative and has zero as its unit, the
    status of a mission that was not aborted is the classification of the
    very total reward the program returns: the sum the loop keeps and the
    sum the lander keeps, which the program classifies, are equal. *)
Theorem status_matches_returned_total key svc (e : E) result :
  (main_mission key svc e).1 = Ret result ->
  status result <> "ABORTED" ->
  exists total,
    mr_total_reward result = Some total
    /\ status result = result_status total.
Proof.
  unfold main_mission.
  destruct key as [[| c key] |];
    try (simpl; intros [= <-]; simpl; congruence).
  change (Z.to_nat 100) with 100%nat.
  destruct (mission_loop 100 svc 100 (start (new_lander e)))
    as [st exc] eqn:Hloop.
  destruct exc as [[] |]; simpl; try discriminate.
  - intros [= <-]. simpl. congruence.
  - intros [= <-] _. simpl. eexists. split; [reflexivity |].
    f_equal. apply (mission_loop_totals _ _ _ _ _ Hloop).
    unfold start, new_lander. simpl.
    destruct (env_reset e). reflexivity.
Qed.

End Laws.

End MissionMore.

(** ** The reward wrapper *)

Section WrapperFacts.
Context {E S A R I : Type} `{OldGym E S A R I}.
Import lunar_env_wrapper.
Implicit Types self : LunarEnvWrapper (E := E) (S := S) (A := A) (R := R).

(** Without a custom reward function the wrapper is transparent: stepping
    it through any actions returns exactly what the environment returns,
    up to the first step that raises. *)
Theorem wrapper_without_reward_func self (actions : list A) :
  custom_reward_func self = None ->
  run self actions = env_run (env self) actions.
Proof.
  revert self.
  induction actions as [| action rest IH]; intros self Hnone;
    [reflexivity |].
  simpl. unfold step. rewrite Hnone.
  destruct (old_step (env self) action)
    as [exc | [[[[e' next_state] reward] done] info]]; [reflexivity |].
  rewrite IH by reflexivity. reflexivity.
Qed.

(** With a custom reward function the wrapper changes rewards only: states,
    done flags and infos are the environment's; each reward is what the
    function makes of the environment's reward, the action, the new state,
    the done flag and the state before the step (the wrapper's current
    state at first, then the state the previous step returned). *)
Theorem wrapper_shapes_rewards_only self func (actions : list A) :
  custom_reward_func self = Some func ->
  run self actions
    = shaped func (current_state self) actions (env_run (env self) actions)
  /\ (fun out : S * R * bool * I => (out.1.1.1, out.1.2, out.2))
       <$> run self actions
     = (fun out : S * R * bool * I => (out.1.1.1, out.1.2, out.2))
       <$> env_run (env self) actions.
Proof.
  revert self.
  induction actions as [| action rest IH]; intros self Hfunc;
    [split; reflexivity |].
  simpl. unfold step. rewrite Hfunc.
  destruct (old_step (env self) action)
    as [exc | [[[[e' next_state] reward] done] info]];
    [split; reflexivity |].
  match goal with
  | |- context [run ?w rest] => destruct (IH w eq_refl) as [Hrun Hsame]
  end.
  simpl in Hrun, Hsame. rewrite Hrun in Hsame. rewrite Hrun.
  split; [reflexivity |].
  rewrite !fmap_cons. simpl. rewrite Hsame. reflexivity.
Qed.

End WrapperFacts.

(** ** The evaluation program *)

Section EvaluationFacts.
Context {E R : Type} `{PyBuiltins} `{Number R} `{Gym E R} `{Stats R}.

Lemma run_episode_exits (id : Z) svc (e : E) :
  (run_episode id svc e).2 = [CloseEnv]
  /\ ((exists result,
         (run_episode id svc e).1 = Ret result /\ episode_id result = id)
      \/ (run_episode id svc e).1 = Raise KeyboardInterrupt).
Proof.
  unfold run_episode.
  destruct (mission_loop _ _ _ _) as [st [[] |]]; simpl;
    split; try reflexivity; try (left; eexists; split; reflexivity).
  right. reflexivity.
Qed.

Lemma run_episodes_shape (ids : list Z) svc (make : Z -> E) :
  forall results effects,
  exists k,
    (run_episodes ids svc make results effects).2
      = (effects ++ ((fun i => InEpisode i CloseEnv) <$> take k ids))%list
    /\ ((k = length ids
         /\ exists new,
              (run_episodes ids svc make results effects).1
                = Ret (results ++ new)%list
              /\ episode_id <$> new = ids)
        \/ ((1 <= k <= length ids)%nat
            /\ (run_episodes ids svc make results effects).1
                 = Raise KeyboardInterrupt)).
Proof.
  induction ids as [| i rest IH]; intros results effects; simpl.
  - exists 0%nat. rewrite app_nil_r. split; [reflexivity |].
    left. split; [reflexivity |]. exists []. rewrite app_nil_r. auto.
  - destruct (run_episode_exits i (svc i) (make i)) as [Heff Hexit].
    destruct (run_episode i (svc i) (make i)) as [r effs]. simpl in *.
    subst effs.
    destruct Hexit as [(result & -> & Hid) | ->].
    + destruct (IH (results ++ [result])%list
                   (effects ++ [InEpisode i CloseEnv])%list)
        as (k & Heffs & Hcase).
      exists (Datatypes.S k). simpl. rewrite Heffs, <- app_assoc.
      split; [reflexivity |].
      destruct Hcase as [(-> & new & Hret & Hids) | (Hk & Hret)].
      * left. split; [reflexivity |]. exists (result :: new).
        rewrite Hret, <- app_assoc. split; [reflexivity |].
        rewrite fmap_cons, Hids, Hid. reflexivity.
      * right. split; [lia | exact Hret].
    + exists 1%nat. simpl. split; [reflexivity |].
      right. split; [lia | reflexivity].
Qed.

(** The evaluation reports all episodes or nothing.  With a key, [main]
    either returns, having closed the three environments in turn and then
    written one report holding the episodes 1, 2, 3 in order -- faults
    inside an episode do not prevent this -- or it is left by an interrupt,
    with the environment of every episode started closed and no report
    written. *)
Theorem evaluation_all_or_nothing (key : string) svc (make : Z -> E) :
  key <> "" ->
  ((evaluate_main (Some key) svc make).1 = Ret ()
   /\ exists report,
        (evaluate_main (Some key) svc make).2
          = [InEpisode 1 CloseEnv; InEpisode 2 CloseEnv;
             InEpisode 3 CloseEnv;
             WriteReport "evaluation_report.json" report]
        /\ episode_id <$> episodes report = [1; 2; 3])
  \/ ((evaluate_main (Some key) svc make).1 = Raise KeyboardInterrupt
      /\ exists k,
           1 <= k <= 3
           /\ (evaluate_main (Some key) svc make).2
                = (fun i => InEpisode i CloseEnv) <$> seqZ 1 k).
Proof.
  intros Hkey. unfold evaluate_main.
  destruct key as [| c key]; [congruence |].
  change (seqZ 1 NUM_EPISODES) with [1; 2; 3].
  destruct (run_episodes_shape [1; 2; 3] svc make [] [])
    as (k & Heffs & Hcase).
  destruct (run_episodes [1; 2; 3] svc make [] []) as [r effects].
  simpl in Heffs, Hcase. subst effects.
  destruct Hcase as [(-> & new & -> & Hids) | (Hk & ->)].
  - left. simpl. split; [reflexivity |].
    eexists. split; [reflexivity |]. exact Hids.
  - right. simpl. split; [reflexivity |].
    exists (Z.of_nat k). split; [lia |].
    destruct k as [| [| [| [| k]]]]; try lia; reflexivity.
Qed.

End EvaluationFacts.

(** ** The mission report *)

Lemma append_assoc (s t u : string) : (s +:+ t) +:+ u = s +:+ (t +:+ u).
Proof.
  induction s as [| c s IH]; [reflexivity |].
  change (String c ((s +:+ t) +:+ u) = String c (s +:+ (t +:+ u))).
  f_equal. exact IH.
Qed.

Lemma append_empty_l (s : string) : "" +:+ s = s.
Proof. reflexivity. Qed.

Lemma append_empty_r (s : string) : s +:+ "" = s.
Proof.
  induction s as [| c s IH]; [reflexivity |].
  change (String c (s +:+ "") = String c s). f_equal. exact IH.
Qed.

Section ReportFacts.
Context {R : Type} `{Number R}.
Implicit Types entry : TurnRecord (R := R).

Lemma report_entry_append (report : string) entry :
  report_entry report entry = report +:+ report_entry "" entry.
Proof.
  unfold report_entry. cbv zeta.
  rewrite !append_assoc, !append_empty_l. reflexivity.
Qed.

Lemma report_sections_from (report : string) (logs : list TurnRecord) :
  foldl report_entry report logs = report +:+ report_sections logs.
Proof.
  unfold report_sections. revert report.
  induction logs as [| entry rest IH]; intros report; simpl.
  - rewrite append_empty_r. reflexivity.
  - rewrite IH, (IH (report_entry "" entry)), report_entry_append.
    apply append_assoc.
Qed.

Lemma report_entry_nonempty entry : report_entry "" entry <> "".
Proof.
  unfold report_entry. cbv zeta. intros Hempty.
  apply (f_equal String.length) in Hempty.
  rewrite !length_append in Hempty. simpl in Hempty. lia.
Qed.

(** Without a log file nothing is written.  With one, the report grows with
    the log: the report of a log extended by further turns is the report of
    the shorter log followed by text for the new turns, which is empty only
    when there are none. *)
Theorem report_grows_with_log (logs more : list TurnRecord) :
  generate_report (R := R) None = None
  /\ exists text,
       generate_report (Some logs) = Some text
       /\ generate_report (Some (logs ++ more)%list)
          = Some (text +:+ report_sections more)
       /\ (report_sections more = "" <-> more = []).
Proof.
  split; [reflexivity |]. unfold generate_report.
  eexists. split; [reflexivity |]. split.
  - rewrite foldl_app. rewrite (report_sections_from _ more). reflexivity.
  - unfold report_sections. destruct more as [| entry rest]; simpl.
    + tauto.
    + split; [| discriminate].
      rewrite report_sections_from. intros Hempty. exfalso.
      destruct (report_entry "" entry) eqn:Hentry; [| discriminate].
      exact (report_entry_nonempty entry Hentry).
Qed.

End ReportFacts.

(** ** Concrete runs *)

Lemma decision_of_call_within_contract_witness :
  exists d,
    decision_of_call brake_call = Ret d
    /\ valid_decision d
    /\ agents.execute_maneuver "MAIN_ENGINE" 5 "braking"
       = ToolSuccess "MAIN_ENGINE" 5 "braking".
Proof.
  destruct (decision_of_call_within_contract brake_call
              {[ "action" := VStr "MAIN_ENGINE"; "duration" := VInt 5;
                 "reasoning" := VStr "braking" ]})
    as (d & a & Hcall & Hact & Hvalid & Htool & _).
  - reflexivity.
  - right. exists "MAIN_ENGINE". split; [vm_compute; reflexivity |].
    unfold in_vocabulary. auto.
  - right. exists 5. split; [vm_compute; reflexivity | lia].
  - exists d. split; [exact Hcall |]. split; [exact Hvalid |].
    vm_compute. reflexivity.
Defined.

Lemma execute_maneuver_noop_witness :
  (execute_maneuver (new_lander early_stop) (VStr "MAIN_ENGINE") 0).1
    = new_lander early_stop.
Proof.
  rewrite (execute_maneuver_noop (new_lander early_stop)
             (VStr "MAIN_ENGINE") 0); [reflexivity |].
  right. lia.
Defined.

Lemma execute_maneuver_fault_witness :
  exists self',
    execute_maneuver (new_lander one_frame) (VStr "MAIN_ENGINE") 3
      = (self', Raise (ProcessFault "end of script"))
    /\ steps self' = 1
    /\ total_reward self' = 3.
Proof.
  destruct (execute_maneuver_fault (new_lander one_frame)
              (VStr "MAIN_ENGINE") 3)
    as (self' & exc & Hrun & Hstep & Hsteps & Htotal & _).
  - reflexivity.
  - vm_compute. lia.
  - vm_compute. repeat constructor.
  - exists self'. split; [| split; [exact Hsteps | exact Htotal]].
    rewrite Hrun. f_equal. f_equal.
    assert (env self' = []) as Henv.
    { vm_compute in Hrun. injection Hrun as <- _. reflexivity. }
    rewrite Henv in Hstep. simpl in Hstep. congruence.
Defined.

Lemma execute_maneuver_total_reward_witness :
  total_reward
    (execute_maneuver (new_lander early_stop) (VStr "MAIN_ENGINE") 5).1 = 7.
Proof.
  destruct (execute_maneuver (new_lander early_stop) (VStr "MAIN_ENGINE") 5)
    as [self' r] eqn:Hrun.
  assert (exists result, r = Ret result /\ reward_accumulated result = 7)
    as (result & -> & Hsum).
  { vm_compute in Hrun. injection Hrun as _ <-. eexists. split; reflexivity. }
  assert (forall x y z : Z, r_add x (r_add y z) = r_add (r_add x y) z)
    as Hassoc by (intros; simpl; lia).
  assert (forall x : Z, r_add r_zero x = x) as Hzl by (intros; simpl; lia).
  assert (forall x : Z, r_add x r_zero = x) as Hzr by (intros; simpl; lia).
  simpl.
  rewrite (execute_maneuver_total_reward Hassoc Hzl Hzr _ _ _ _ _ Hrun),
    Hsum.
  reflexivity.
Defined.

Lemma reset_then_burst_witness :
  1 <= steps
         (execute_maneuver
            (reset (execute_maneuver (new_lander early_stop)
                      (VStr "HOLD") 5).1).1
            (VStr "HOLD") 1).1.
Proof.
  apply (reset_then_burst
           (execute_maneuver (new_lander early_stop) (VStr "HOLD") 5).1
           (VStr "HOLD") 1 ([], origin, 5, false, false)).
  - lia.
  - vm_compute. reflexivity.
Defined.

Lemma turn_on_timeout_witness :
  exists st' rec,
    turn (scripted (Raise TimeoutError)) (start (new_lander early_stop))
      = (st', Ret ())
    /\ commander_decision rec = fallback_decision
    /\ mission_log st' = [rec]
    /\ steps (lander st') = 1.
Proof.
  destruct (turn_on_timeout (scripted (Raise TimeoutError))
              (start (new_lander early_stop))
              [text_event "Decelerate."]
              ([(4, true); (5, false)], origin, 3, false, false))
    as (st' & rec & Hturn & Hlog & Hdec & Hsteps & _);
    try reflexivity.
  exists st', rec. repeat split; assumption.
Defined.

Lemma status_matches_returned_total_witness :
  exists result,
    (main_mission (Some "key") warp_service fifty_frames).1 = Ret result
    /\ mr_total_reward result = Some 50
    /\ status result = "INCOMPLETE".
Proof.
  destruct (main_mission (Some "key") warp_service fifty_frames).1
    as [exc | result] eqn:Hrun; [vm_compute in Hrun; discriminate |].
  assert (status result = "INCOMPLETE" /\ mr_total_reward result = Some 50)
    as [Hstatus Htotal].
  { vm_compute in Hrun. injection Hrun as <-. split; reflexivity. }
  assert (forall x y z : Z, r_add x (r_add y z) = r_add (r_add x y) z)
    as Hassoc by (intros; simpl; lia).
  assert (forall x : Z, r_add r_zero x = x) as Hzl by (intros; simpl; lia).
  assert (forall x : Z, r_add x r_zero = x) as Hzr by (intros; simpl; lia).
  destruct (status_matches_returned_total Hassoc Hzl Hzr
              (Some "key") warp_service fifty_frames result Hrun)
    as (total & Hsome & Hclass).
  - rewrite Hstatus. discriminate.
  - exists result. repeat split; assumption.
Defined.

Lemma total_reward_is_log_sum_witness :
  exists result,
    (run_episode 1 failing_service fifty_frames).1 = Ret result
    /\ er_total_reward result
       = foldl r_add r_zero (log_rewards (er_log result)).
Proof.
  destruct (run_episode 1 failing_service fifty_frames).1
    as [exc | result] eqn:Hrun; [vm_compute in Hrun; discriminate |].
  exists result. split; [reflexivity |].
  apply (proj2 (total_reward_is_log_sum failing_service fifty_frames)
           1 result Hrun).
Defined.

Lemma turns_within_budget_witness :
  exists result,
    (run_episode 1 failing_service fifty_frames).1 = Ret result
    /\ 0 <= er_steps result <= 80.
Proof.
  destruct (run_episode 1 failing_service fifty_frames).1
    as [exc | result] eqn:Hrun; [vm_compute in Hrun; discriminate |].
  exists result. split; [reflexivity |].
  apply (proj2 (turns_within_budget failing_service fifty_frames)
           1 result Hrun).
Defined.

Lemma wrapper_without_reward_func_witness :
  lunar_env_wrapper.run
    (lunar_env_wrapper.init (0, early_stop) None) [2; 2; 0; 0]
  = [(1, 3, false, ()); (2, 4, true, ()); (3, 5, false, ())].
Proof.
  rewrite (wrapper_without_reward_func
             (lunar_env_wrapper.init (0, early_stop) None) [2; 2; 0; 0]);
    reflexivity.
Defined.

Lemma wrapper_shapes_rewards_only_witness :
  lunar_env_wrapper.run
    (lunar_env_wrapper.init (0, early_stop) (Some bonus)) [2; 2; 0; 0]
  = [(1, 5, false, ()); (2, 7, true, ()); (3, 7, false, ())].
Proof.
  rewrite (proj1 (wrapper_shapes_rewards_only
                    (lunar_env_wrapper.init (0, early_stop) (Some bonus))
                    bonus [2; 2; 0; 0] eq_refl)).
  reflexivity.
Defined.

Lemma evaluation_all_or_nothing_witness :
  (evaluate_main (Some "key") (fun _ => failing_service)
                 (fun _ => fifty_frames)).1 = Ret ().
Proof.
  assert ("key" <> "") as Hkey by discriminate.
  destruct (evaluation_all_or_nothing "key" (fun _ => failing_service)
              (fun _ => fifty_frames) Hkey)
    as [[Hret _] | [Hint _]]; [exact Hret |].
  vm_compute in Hint. discriminate.
Defined.
